(** * Highlight resolution of chatterino's [SharedMessageBuilder]

    A shallow embedding of [src/messages/SharedMessageBuilder.cpp]:
    the badge parser, the fallback sound resolver, the highlight
    resolver [parseHighlights] and the notification dispatcher
    [triggerHighlights], with the properties the specification states
    about them. *)

From Stdlib Require Import Ascii String.
From stdpp Require Import gmap strings list.

Open Scope string_scope.

(** ** Qt value types *)

Abbreviation QString := string.

Inductive SplitBehavior := KeepEmptyParts | SkipEmptyParts.

Module QString.

Definition isEmpty (s : QString) : bool :=
  match s with EmptyString => true | String _ _ => false end.

Definition size (s : QString) : nat := String.length s.

(** [QString::split(sep)] with the default [KeepEmptyParts]: the
    pieces between consecutive separators, the empty ones included;
    a string without separator is its own single piece. *)
Fixpoint splitKeep (sep : ascii) (s : QString) : list QString :=
  match s with
  | EmptyString => [EmptyString]
  | String c rest =>
      if Ascii.eqb c sep then EmptyString :: splitKeep sep rest
      else match splitKeep sep rest with
           | part :: parts => String c part :: parts
           | [] => [String c EmptyString]
           end
  end.

Definition split (sep : ascii) (behavior : SplitBehavior) (s : QString)
  : list QString :=
  match behavior with
  | KeepEmptyParts => splitKeep sep s
  | SkipEmptyParts => List.filter (fun part => negb (isEmpty part)) (splitKeep sep s)
  end.

(** Number of occurrences of a character, and the inverse of
    [splitKeep]; both only serve to state what [splitKeep] computes. *)
Fixpoint count (c : ascii) (s : QString) : nat :=
  match s with
  | EmptyString => 0
  | String d rest => (if Ascii.eqb d c then 1 else 0) + count c rest
  end.

Fixpoint join (sep : ascii) (parts : list QString) : QString :=
  match parts with
  | [] => EmptyString
  | [part] => part
  | part :: rest => part ++ String sep (join sep rest)
  end.

End QString.

(** [QUrl] values are kept in the form the source builds them in:
    [QUrl(string)] or [QUrl::fromLocalFile(path)]. Two URLs built
    differently can be the same URL for Qt: see [QUrl_equal]. *)
Inductive QUrl :=
| Url (s : QString)
| fromLocalFile (path : QString).

Record QColor := mkQColor { rgba : Z }.

(** ** Badges and the badge parser *)

Record Badge := mkBadge { name : QString; version : QString }.

(** [QVariantMap] restricted to string values, which is what IRC tags
    carry. *)
Abbreviation QVariantMap := (gmap string QString).

Definition parseTagList (tags : QVariantMap) (key : QString) : list QString :=
  match tags !! key with
  | None => []
  | Some value => QString.split "," SkipEmptyParts value
  end.

(** One iteration of the loop of [parseBadges]: [continue] leaves the
    vector as it is, [emplace_back] appends. *)
Definition parseBadges_step (badges : list Badge) (badge : QString) : list Badge :=
  let parts := QString.split "/" KeepEmptyParts badge in
  if negb (Nat.eqb (length parts) 2) then badges
  else (badges ++ [mkBadge (nth 0 parts "") (nth 1 parts "")])%list.

Definition parseBadges (tags : QVariantMap) : list Badge :=
  fold_left parseBadges_step (parseTagList tags "badges") [].

(** The badge parser as the specification words it: tokens between
    commas, the empty ones skipped; a token is a badge exactly when it
    splits on [/] into two parts; order of appearance. *)
Definition spec_badge_of_token (token : QString) : option Badge :=
  match QString.splitKeep "/" token with
  | [name; version] => Some (mkBadge name version)
  | _ => None
  end.

Definition spec_parseBadges (tags : QVariantMap) : list Badge :=
  match tags !! "badges" with
  | None => []
  | Some value =>
      omap spec_badge_of_token
        (List.filter (fun token => negb (String.eqb token ""))
           (QString.splitKeep "," value))
  end.

(** ** Messages, rules and settings *)

Module MessageFlag.
Inductive t := Subscription | Highlighted | ShowInMentions | Collapsed.
End MessageFlag.

(** [FlagsEnum<MessageFlag>]: one bit per flag. *)
Record MessageFlags := mkMessageFlags {
  bitSubscription : bool;
  bitHighlighted : bool;
  bitShowInMentions : bool;
  bitCollapsed : bool
}.

Module Flags.

Definition has (flags : MessageFlags) (flag : MessageFlag.t) : bool :=
  match flag with
  | MessageFlag.Subscription => bitSubscription flags
  | MessageFlag.Highlighted => bitHighlighted flags
  | MessageFlag.ShowInMentions => bitShowInMentions flags
  | MessageFlag.Collapsed => bitCollapsed flags
  end.

Definition set (flags : MessageFlags) (flag : MessageFlag.t) : MessageFlags :=
  match flag with
  | MessageFlag.Subscription =>
      mkMessageFlags true (bitHighlighted flags) (bitShowInMentions flags) (bitCollapsed flags)
  | MessageFlag.Highlighted =>
      mkMessageFlags (bitSubscription flags) true (bitShowInMentions flags) (bitCollapsed flags)
  | MessageFlag.ShowInMentions =>
      mkMessageFlags (bitSubscription flags) (bitHighlighted flags) true (bitCollapsed flags)
  | MessageFlag.Collapsed =>
      mkMessageFlags (bitSubscription flags) (bitHighlighted flags) (bitShowInMentions flags) true
  end.

End Flags.

Module ColorType.
Inductive t := Subscription | Whisper | SelfHighlight.
End ColorType.

(** [std::shared_ptr<QColor>]; [None] is the null pointer. *)
Abbreviation QColorPtr := (option QColor).

Module HighlightPhrase.

(** The fields are the arguments of the constructor, in its order. *)
Record t := new {
  pattern : QString;
  showInMentions : bool;
  hasAlert : bool;
  hasSound : bool;
  isRegex : bool;
  isCaseSensitive : bool;
  soundUrl : QString;
  getColor : QColorPtr
}.

(** Modelled from the spec: HighlightPhrase.hpp is not among the
    sources; the rule carries an optional custom sound URL, which is
    taken as present when the stored string is not empty. *)
Definition hasCustomSound (h : t) : bool := negb (QString.isEmpty (soundUrl h)).

Definition getSoundUrl (h : t) : QUrl := Url (soundUrl h).

End HighlightPhrase.

Module HighlightBadge.

(** What the accessors of a badge rule return; its matcher is
    [badgeIsMatch] below. *)
Record t := new {
  badgeName : QString;
  hasAlert : bool;
  hasSound : bool;
  soundUrl : QString;
  getColor : QColorPtr
}.

(** Modelled from the spec: HighlightBadge.hpp is not among the
    sources; same reading of the optional custom sound URL as for
    phrases. *)
Definition hasCustomSound (h : t) : bool := negb (QString.isEmpty (soundUrl h)).

Definition getSoundUrl (h : t) : QUrl := Url (soundUrl h).

End HighlightBadge.

(** [getSettings()], the fields this file reads. *)
Record Settings := {
  pathHighlightSound : QString;
  customHighlightSound : bool;
  enableSubHighlight : bool;
  enableSubHighlightTaskbar : bool;
  enableSubHighlightSound : bool;
  subHighlightSoundUrl : QString;
  enableWhisperHighlight : bool;
  enableWhisperHighlightTaskbar : bool;
  enableWhisperHighlightSound : bool;
  whisperHighlightSoundUrl : QString;
  highlightedMessages : list HighlightPhrase.t;
  enableSelfHighlight : bool;
  showSelfHighlightInMentions : bool;
  enableSelfHighlightTaskbar : bool;
  enableSelfHighlightSound : bool;
  selfHighlightSoundUrl : QString;
  streamerModeMuteMentions : bool;
  highlightAlwaysPlaySound : bool
}.

(** [getCSettings()]. *)
Record ConcurrentSettings := {
  highlightedUsers : list HighlightPhrase.t;
  highlightedBadges : list HighlightBadge.t;
  isBlacklistedUser : QString -> bool;
  isMutedChannel : QString -> bool
}.

Record TwitchAccount := {
  getUserName : QString;
  isAnon : bool
}.

(** Everything the functions reach through singletons and through Qt:
    the settings, the colour provider, the current account, the file
    system, the pattern matchers of the rules, the parsed form of a
    URL, which is what Qt compares, and the state of the
    application. *)
Record Env := {
  getSettings : Settings;
  getCSettings : ConcurrentSettings;
  color : ColorType.t -> QColorPtr;
  getCurrent : TwitchAccount;
  QFileInfo_exists : QString -> bool;
  QFileInfo_isFile : QString -> bool;
  phraseIsMatch : HighlightPhrase.t -> QString -> bool;
  badgeIsMatch : HighlightBadge.t -> Badge -> bool;
  QUrl_parsed : QUrl -> QString;
  isInStreamerMode : bool;
  focusWidgetIsSet : bool;
  isGuiThread : bool
}.

(** [QUrl::operator==]: two URLs are equal when their parsed forms
    are, however they were built. *)
Definition QUrl_equal (env : Env) (url1 url2 : QUrl) : bool :=
  bool_decide (QUrl_parsed env url1 = QUrl_parsed env url2).

(** The constant members of the builder. *)
Record Incoming := {
  nick : QString;
  originalMessage_ : QString;
  isReceivedWhisper : bool;
  tags : QVariantMap;
  channelName : QString
}.

(** The members [parseHighlights] writes: the flags and colour of the
    message under construction and the three highlight members. *)
Record Builder := mkBuilder {
  flags : MessageFlags;
  highlightColor : QColorPtr;
  highlightAlert_ : bool;
  highlightSound_ : bool;
  highlightSoundUrl_ : QUrl
}.

Definition setFlag (flag : MessageFlag.t) (b : Builder) : Builder :=
  mkBuilder (Flags.set (flags b) flag) (highlightColor b)
    (highlightAlert_ b) (highlightSound_ b) (highlightSoundUrl_ b).

Definition setHighlightColor (c : QColorPtr) (b : Builder) : Builder :=
  mkBuilder (flags b) c (highlightAlert_ b) (highlightSound_ b) (highlightSoundUrl_ b).

Definition setHighlightAlert (b : Builder) : Builder :=
  mkBuilder (flags b) (highlightColor b) true (highlightSound_ b) (highlightSoundUrl_ b).

Definition setHighlightSound (b : Builder) : Builder :=
  mkBuilder (flags b) (highlightColor b) (highlightAlert_ b) true (highlightSoundUrl_ b).

Definition setHighlightSoundUrl (url : QUrl) (b : Builder) : Builder :=
  mkBuilder (flags b) (highlightColor b) (highlightAlert_ b) (highlightSound_ b) url.

(** How a loop body or a block leaves: falling through, or [return]. *)
Inductive Flow :=
| Continue (b : Builder)
| Return (b : Builder).

Definition builderOf (f : Flow) : Builder :=
  match f with Continue b | Return b => b end.

Inductive SinkCall :=
| SetMedia (url : QUrl)
| Play
| SendAlert.

Inductive QMediaPlayer := thePlayer.

(** ** The functions of SharedMessageBuilder.cpp *)

Section SharedMessageBuilder.

Variable env : Env.
Variable this : Incoming.

Definition getFallbackHighlightSound : QUrl :=
  let path := pathHighlightSound (getSettings env) in
  let fileExists := QFileInfo_exists env path && QFileInfo_isFile env path in
  if customHighlightSound (getSettings env) && fileExists
  then fromLocalFile path
  else Url "qrc:/sounds/ping2.wav".

(** The test that guards every colour assignment of a rule. *)
Definition subHighlightActive (b : Builder) : bool :=
  Flags.has (flags b) MessageFlag.Subscription
  && enableSubHighlight (getSettings env).

(** Highlight because it's a subscription. *)
Definition subscriptionHighlight (b : Builder) : Builder :=
  if Flags.has (flags b) MessageFlag.Subscription
     && enableSubHighlight (getSettings env)
  then
    let b := if enableSubHighlightTaskbar (getSettings env)
             then setHighlightAlert b else b in
    let b := if enableSubHighlightSound (getSettings env)
             then
               let b := setHighlightSound b in
               if negb (QString.isEmpty (subHighlightSoundUrl (getSettings env)))
               then setHighlightSoundUrl (Url (subHighlightSoundUrl (getSettings env))) b
               else setHighlightSoundUrl getFallbackHighlightSound b
             else b in
    let b := setFlag MessageFlag.Highlighted b in
    setHighlightColor (color env ColorType.Subscription) b
  else b.

(** Highlight because it's a whisper. *)
Definition whisperHighlight (b : Builder) : Builder :=
  if isReceivedWhisper this && enableWhisperHighlight (getSettings env)
  then
    let b := if enableWhisperHighlightTaskbar (getSettings env)
             then setHighlightAlert b else b in
    let b := if enableWhisperHighlightSound (getSettings env)
             then
               let b := setHighlightSound b in
               if negb (QString.isEmpty (whisperHighlightSoundUrl (getSettings env)))
               then setHighlightSoundUrl (Url (whisperHighlightSoundUrl (getSettings env))) b
               else setHighlightSoundUrl getFallbackHighlightSound b
             else b in
    setHighlightColor (color env ColorType.Whisper) b
  else b.

(** Body of the loop over the user highlights, for a rule that
    matched, up to the test that ends the iteration. *)
Definition userHighlightBody (userHighlight : HighlightPhrase.t) (b : Builder)
  : Builder :=
  let b := setFlag MessageFlag.Highlighted b in
  let b := if negb (subHighlightActive b)
           then setHighlightColor (HighlightPhrase.getColor userHighlight) b
           else b in
  let b := if HighlightPhrase.showInMentions userHighlight
           then setFlag MessageFlag.ShowInMentions b else b in
  let b := if HighlightPhrase.hasAlert userHighlight
           then setHighlightAlert b else b in
  if HighlightPhrase.hasSound userHighlight
  then
    let b := setHighlightSound b in
    if HighlightPhrase.hasCustomSound userHighlight
    then setHighlightSoundUrl (HighlightPhrase.getSoundUrl userHighlight) b
    else setHighlightSoundUrl getFallbackHighlightSound b
  else b.

(** Highlight because of sender. *)
Fixpoint userHighlightsLoop (userHighlights : list HighlightPhrase.t)
  (b : Builder) : Flow :=
  match userHighlights with
  | [] => Continue b
  | userHighlight :: rest =>
      if negb (phraseIsMatch env userHighlight (nick this))
      then userHighlightsLoop rest b
      else
        let b := userHighlightBody userHighlight b in
        if highlightAlert_ b && highlightSound_ b
        then Return b
        else userHighlightsLoop rest b
  end.

Definition selfHighlight : HighlightPhrase.t :=
  HighlightPhrase.new
    (getUserName (getCurrent env))
    (showSelfHighlightInMentions (getSettings env))
    (enableSelfHighlightTaskbar (getSettings env))
    (enableSelfHighlightSound (getSettings env))
    false false
    (selfHighlightSoundUrl (getSettings env))
    (color env ColorType.SelfHighlight).

Definition activeHighlights : list HighlightPhrase.t :=
  let activeHighlights := highlightedMessages (getSettings env) in
  if negb (isAnon (getCurrent env))
     && enableSelfHighlight (getSettings env)
     && (0 <? QString.size (getUserName (getCurrent env)))%nat
  then (activeHighlights ++ [selfHighlight])%list
  else activeHighlights.

Definition phraseHighlightBody (highlight : HighlightPhrase.t) (b : Builder)
  : Builder :=
  let b := setFlag MessageFlag.Highlighted b in
  let b := if negb (subHighlightActive b)
           then setHighlightColor (HighlightPhrase.getColor highlight) b
           else b in
  let b := if HighlightPhrase.showInMentions highlight
           then setFlag MessageFlag.ShowInMentions b else b in
  let b := if HighlightPhrase.hasAlert highlight
           then setHighlightAlert b else b in
  if HighlightPhrase.hasSound highlight && negb (highlightSound_ b)
  then
    let b := setHighlightSound b in
    if HighlightPhrase.hasCustomSound highlight
    then setHighlightSoundUrl (HighlightPhrase.getSoundUrl highlight) b
    else setHighlightSoundUrl getFallbackHighlightSound b
  else b.

(** Highlight because of message; [break] ends the loop only. *)
Fixpoint phraseHighlightsLoop (highlights : list HighlightPhrase.t)
  (b : Builder) : Builder :=
  match highlights with
  | [] => b
  | highlight :: rest =>
      if negb (phraseIsMatch env highlight (originalMessage_ this))
      then phraseHighlightsLoop rest b
      else
        let b := phraseHighlightBody highlight b in
        if highlightAlert_ b && highlightSound_ b
        then b
        else phraseHighlightsLoop rest b
  end.

(** Body of the inner badge loop for a matching badge; the second
    component is the local [badgeHighlightSet]. *)
Definition badgeHighlightBody (highlight : HighlightBadge.t)
  (s : Builder * bool) : Builder * bool :=
  let '(b, badgeHighlightSet) := s in
  let '(b, badgeHighlightSet) :=
    if negb badgeHighlightSet
    then
      let b := setFlag MessageFlag.Highlighted b in
      let b := if negb (subHighlightActive b)
               then setHighlightColor (HighlightBadge.getColor highlight) b
               else b in
      (b, true)
    else (b, badgeHighlightSet) in
  let b := if HighlightBadge.hasAlert highlight
           then setHighlightAlert b else b in
  let b := if HighlightBadge.hasSound highlight && negb (highlightSound_ b)
           then
             let b := setHighlightSound b in
             setHighlightSoundUrl
               (if HighlightBadge.hasCustomSound highlight
                then HighlightBadge.getSoundUrl highlight
                else getFallbackHighlightSound) b
           else b in
  (b, badgeHighlightSet).

Fixpoint badgesLoop (highlight : HighlightBadge.t) (badges : list Badge)
  (s : Builder * bool) : Builder * bool :=
  match badges with
  | [] => s
  | badge :: rest =>
      if negb (badgeIsMatch env highlight badge)
      then badgesLoop highlight rest s
      else
        let s := badgeHighlightBody highlight s in
        if highlightAlert_ (fst s) && highlightSound_ (fst s)
        then s
        else badgesLoop highlight rest s
  end.

Fixpoint badgeHighlightsLoop (badgeHighlights : list HighlightBadge.t)
  (badges : list Badge) (s : Builder * bool) : Builder * bool :=
  match badgeHighlights with
  | [] => s
  | highlight :: rest =>
      badgeHighlightsLoop rest badges (badgesLoop highlight badges s)
  end.

(** Highlight because of badge. *)
Definition badgeHighlight (b : Builder) : Builder :=
  let badges := parseBadges (tags this) in
  let badgeHighlights := highlightedBadges (getCSettings env) in
  let badgeHighlightSet := false in
  fst (badgeHighlightsLoop badgeHighlights badges (b, badgeHighlightSet)).

Definition parseHighlights (b : Builder) : Builder :=
  let b := subscriptionHighlight b in
  let currentUsername := getUserName (getCurrent env) in
  if isBlacklistedUser (getCSettings env) (nick this)
  then b
  else
    let b := whisperHighlight b in
    match userHighlightsLoop (highlightedUsers (getCSettings env)) b with
    | Return b => b
    | Continue b =>
        if String.eqb (nick this) currentUsername
        then b
        else
          let b := phraseHighlightsLoop activeHighlights b in
          badgeHighlight b
    end.

Definition getPlayer : option QMediaPlayer :=
  if isGuiThread env then Some thePlayer else None.

(** [triggerHighlights] takes the static [currentPlayerUrl] and
    returns the calls made on the player and on the window manager,
    in order, with the new value of the static. *)
Definition triggerHighlights (b : Builder) (currentPlayerUrl : QUrl)
  : list SinkCall * QUrl :=
  if isInStreamerMode env && streamerModeMuteMentions (getSettings env)
  then ([], currentPlayerUrl)
  else if isMutedChannel (getCSettings env) (channelName this)
  then ([], currentPlayerUrl)
  else
    let hasFocus := focusWidgetIsSet env in
    let resolveFocus := negb hasFocus || highlightAlwaysPlaySound (getSettings env) in
    let '(played, currentPlayerUrl) :=
      if highlightSound_ b && resolveFocus
      then
        match getPlayer with
        | Some player =>
            if negb (QUrl_equal env currentPlayerUrl (highlightSoundUrl_ b))
            then ([SetMedia (highlightSoundUrl_ b); Play], highlightSoundUrl_ b)
            else ([Play], currentPlayerUrl)
        | None => ([], currentPlayerUrl)
        end
      else ([], currentPlayerUrl) in
    ((played ++ (if highlightAlert_ b then [SendAlert] else []))%list, currentPlayerUrl).

End SharedMessageBuilder.

(** ** Predicates of the statements *)

(** The subscription guard is up and the colour is still that of [b0]. *)
Definition colorGuarded (env : Env) (b0 b : Builder) : Prop :=
  subHighlightActive env b = true /\ highlightColor b = highlightColor b0.

(** A sound is requested and the URL is still that of [b0]. *)
Definition soundKept (b0 b : Builder) : Prop :=
  highlightSound_ b = true /\ highlightSoundUrl_ b = highlightSoundUrl_ b0.

(** The URL a phrase rule asks for: its own, or the fallback. *)
Definition soundUrlOf (env : Env) (h : HighlightPhrase.t) : QUrl :=
  if HighlightPhrase.hasCustomSound h
  then HighlightPhrase.getSoundUrl h
  else getFallbackHighlightSound env.

Definition isHighlighted (b : Builder) : Prop :=
  Flags.has (flags b) MessageFlag.Highlighted = true.

(** The local [badgeHighlightSet] is only set with the flag. *)
Definition latchImpliesFlag (s : Builder * bool) : Prop :=
  snd s = true -> isHighlighted (fst s).

(** The local [badgeHighlightSet] is set, and so is the flag. *)
Definition flagged (s : Builder * bool) : Prop :=
  snd s = true /\ isHighlighted (fst s).

(** Number of calls of one kind among the calls of the dispatcher. *)
Definition isSetMedia (c : SinkCall) : bool :=
  match c with SetMedia _ => true | _ => false end.

Definition isPlay (c : SinkCall) : bool :=
  match c with Play => true | _ => false end.

Definition isSendAlert (c : SinkCall) : bool :=
  match c with SendAlert => true | _ => false end.

Definition calls (kind : SinkCall -> bool) (l : list SinkCall) : nat :=
  length (List.filter kind l).

(** The two tests that make [triggerHighlights] return at once. *)
Definition muted (env : Env) (this : Incoming) : bool :=
  (isInStreamerMode env && streamerModeMuteMentions (getSettings env))
  || isMutedChannel (getCSettings env) (channelName this).

(** ** Concrete configurations

    A configuration with the subscription and whisper categories
    enabled, one phrase rule, one badge rule and a blacklist of one
    name. The matchers compare the whole text with the pattern and the
    badge name with the rule's name. *)

Module Sample.

Definition noFlags : MessageFlags := mkMessageFlags false false false false.

Definition subscriptionFlags : MessageFlags := mkMessageFlags true false false false.

Definition fresh (flags : MessageFlags) : Builder :=
  mkBuilder flags None false false (Url "").

Definition palette (t : ColorType.t) : QColorPtr :=
  Some (mkQColor match t with
                 | ColorType.Subscription => 1
                 | ColorType.Whisper => 2
                 | ColorType.SelfHighlight => 3
                 end).

Definition helloPhrase : HighlightPhrase.t :=
  HighlightPhrase.new "hello" false false false false false "" (Some (mkQColor 10)).

Definition aliceRule : HighlightPhrase.t :=
  HighlightPhrase.new "alice" false false true false false "user.wav" (Some (mkQColor 11)).

Definition bobRule : HighlightPhrase.t :=
  HighlightPhrase.new "bob" false true true false false "" (Some (mkQColor 12)).

Definition moderatorBadge : HighlightBadge.t :=
  HighlightBadge.new "moderator" false false "" (Some (mkQColor 13)).

(** A local file and its [file://] URL are the same URL. *)
Definition parsed (url : QUrl) : QString :=
  match url with
  | Url s => s
  | fromLocalFile path => "file://" ++ path
  end.

Definition settingsWith (custom : bool) (path : QString) : Settings := {|
  pathHighlightSound := path;
  customHighlightSound := custom;
  enableSubHighlight := true;
  enableSubHighlightTaskbar := false;
  enableSubHighlightSound := false;
  subHighlightSoundUrl := "";
  enableWhisperHighlight := true;
  enableWhisperHighlightTaskbar := true;
  enableWhisperHighlightSound := true;
  whisperHighlightSoundUrl := "whisper.wav";
  highlightedMessages := [helloPhrase];
  enableSelfHighlight := true;
  showSelfHighlightInMentions := false;
  enableSelfHighlightTaskbar := false;
  enableSelfHighlightSound := false;
  selfHighlightSoundUrl := "";
  streamerModeMuteMentions := false;
  highlightAlwaysPlaySound := false
|}.

Definition settings : Settings := settingsWith false "".

Definition csettings (users : list HighlightPhrase.t) : ConcurrentSettings := {|
  highlightedUsers := users;
  highlightedBadges := [moderatorBadge];
  isBlacklistedUser := fun name => String.eqb name "troll";
  isMutedChannel := fun name => String.eqb name "quiet"
|}.

Definition envWith (settings : Settings) (users : list HighlightPhrase.t)
  (gui : bool) : Env := {|
  getSettings := settings;
  getCSettings := csettings users;
  color := palette;
  getCurrent := {| getUserName := "me"; isAnon := false |};
  QFileInfo_exists := fun path => String.eqb path "/home/me/ping.wav";
  QFileInfo_isFile := fun path => String.eqb path "/home/me/ping.wav";
  phraseIsMatch := fun h text => String.eqb (HighlightPhrase.pattern h) text;
  badgeIsMatch := fun h badge => String.eqb (HighlightBadge.badgeName h) (name badge);
  QUrl_parsed := parsed;
  isInStreamerMode := false;
  focusWidgetIsSet := false;
  isGuiThread := gui
|}.

Definition env (users : list HighlightPhrase.t) (gui : bool) : Env :=
  envWith settings users gui.

(** A received whisper from [nick] with the given text. *)
Definition whisper (nick text : QString) : Incoming := {|
  nick := nick;
  originalMessage_ := text;
  isReceivedWhisper := true;
  tags := {[ "badges" := "subscriber/12" ]};
  channelName := "forsen"
|}.

End Sample.

(** ** What the player has loaded

    The calls of [triggerHighlights] read against a player: [setMedia]
    loads a URL, [play] plays what is loaded. *)

Definition loadedMedia (out : list SinkCall) (loaded : QUrl) : QUrl :=
  fold_left (fun m c => match c with SetMedia url => url | _ => m end) out loaded.

Fixpoint playedMedia (out : list SinkCall) (loaded : QUrl) : list QUrl :=
  match out with
  | [] => []
  | SetMedia url :: rest => playedMedia rest url
  | Play :: rest => loaded :: playedMedia rest loaded
  | SendAlert :: rest => playedMedia rest loaded
  end.

(** ** Predicates of the statements on [parseHighlights] *)

(** Nothing set in [b] is cleared in [b']: flags, alert and sound only
    grow, and the two flags the pass never writes are the same. *)
Definition grows (b b' : Builder) : Prop :=
  (forall flag, Flags.has (flags b) flag = true -> Flags.has (flags b') flag = true)
  /\ bitSubscription (flags b') = bitSubscription (flags b)
  /\ bitCollapsed (flags b') = bitCollapsed (flags b)
  /\ (highlightAlert_ b = true -> highlightAlert_ b' = true)
  /\ (highlightSound_ b = true -> highlightSound_ b' = true).

(** [b'] differs from [b] in the Highlighted flag at most, as far as
    flags go. *)
Definition sameFlagsButHighlighted (b b' : Builder) : Prop :=
  bitSubscription (flags b') = bitSubscription (flags b)
  /\ bitShowInMentions (flags b') = bitShowInMentions (flags b)
  /\ bitCollapsed (flags b') = bitCollapsed (flags b).

Definition flagsKept (b : Builder) (s : Builder * bool) : Prop :=
  sameFlagsButHighlighted b (fst s).

(** The badge latch is set and the colour is [c]. *)
Definition latchedColor (c : QColorPtr) (s : Builder * bool) : Prop :=
  snd s = true /\ highlightColor (fst s) = c.

(** The text of a badge inside the [badges] tag, and of a whole list. *)
Definition badgeToken (badge : Badge) : QString :=
  name badge ++ String "/" (version badge).

Definition badgesValue (badges : list Badge) : QString :=
  QString.join "," (List.map badgeToken badges).

Definition separatorFree (s : QString) : Prop :=
  QString.count "," s = 0 /\ QString.count "/" s = 0.

(** ** SearchPopup.cpp *)

(** One match of [predicateRegex]: the two named groups and the whole
    match. *)
Record QRegularExpressionMatch := mkMatch {
  capturedName : QString;
  capturedValue : QString;
  captured : QString
}.

Inductive MessagePredicate :=
| LinkPredicate
| MessageFlagsPredicate (flags : QString)
| RegexPredicate (regex : QString)
| SubstringPredicate (search : QString)
| AuthorPredicate (authors : list QString)
| ChannelPredicate (channels : list QString).

(** What the search reaches outside this file: [appliesTo] of the
    predicate classes, the matches [predicateRegex.globalMatch] yields
    in order, and [QString::remove] with [trimQuotationMarksRegex]. *)
Record SearchEnv (Message : Type) := {
  appliesTo : MessagePredicate -> Message -> bool;
  globalMatch : QString -> list QRegularExpressionMatch;
  removeQuotationMarks : QString -> QString
}.

Arguments appliesTo {Message}.
Arguments globalMatch {Message}.
Arguments removeQuotationMarks {Message}.

(** A channel as far as this file uses one: its name and the messages
    given to [addMessage], in order. [filter] creates its channel with
    [Channel::Type::None]. *)
Record Channel (Message : Type) := mkChannel {
  getName : QString;
  getMessageSnapshot : list Message
}.

Arguments mkChannel {Message}.
Arguments getName {Message}.
Arguments getMessageSnapshot {Message}.

Definition addMessage {Message : Type} (channel : Channel Message) (message : Message)
  : Channel Message :=
  mkChannel (getName channel) (getMessageSnapshot channel ++ [message])%list.

(** [FilterSetPtr]: [None] is the null pointer, otherwise
    [filterSet->filter(message, channel)]. *)
Abbreviation FilterSetPtr Message := (option (Message -> Channel Message -> bool)).

(** The locals of [parsePredicates]. *)
Record Parsing := mkParsing {
  predicates : list MessagePredicate;
  authors : list QString;
  channels : list QString
}.

(** The members of the popup and what it shows: the channel of the
    view and the title of the window. *)
Record SearchPopup (Message : Type) := mkSearchPopup {
  searchInput_text : QString;
  channelName_ : QString;
  snapshot_ : list Message;
  channelFilters_ : FilterSetPtr Message;
  channelView_sourceChannel : option (Channel Message);
  channelView_channel : option (Channel Message);
  windowTitle : QString
}.

Arguments mkSearchPopup {Message}.
Arguments searchInput_text {Message}.
Arguments channelName_ {Message}.
Arguments snapshot_ {Message}.
Arguments channelFilters_ {Message}.
Arguments channelView_sourceChannel {Message}.
Arguments channelView_channel {Message}.
Arguments windowTitle {Message}.

Section SearchPopupFunctions.

Context {Message : Type}.
Variable senv : SearchEnv Message.

(** Body of the loop over the matches. *)
Definition parsePredicates_step (st : Parsing) (m : QRegularExpressionMatch) : Parsing :=
  let name := capturedName m in
  let value := removeQuotationMarks senv (capturedValue m) in
  if String.eqb name "from"
  then mkParsing (predicates st) (authors st ++ [value])%list (channels st)
  else if String.eqb name "has" && String.eqb value "link"
  then mkParsing (predicates st ++ [LinkPredicate])%list (authors st) (channels st)
  else if String.eqb name "in"
  then mkParsing (predicates st) (authors st) (channels st ++ [value])%list
  else if String.eqb name "is"
  then mkParsing (predicates st ++ [MessageFlagsPredicate value])%list
         (authors st) (channels st)
  else if String.eqb name "regex"
  then mkParsing (predicates st ++ [RegexPredicate value])%list
         (authors st) (channels st)
  else mkParsing (predicates st ++ [SubstringPredicate (captured m)])%list
         (authors st) (channels st).

(** The part of [parsePredicates] after the iterator is obtained. *)
Definition parsePredicates_matches (matches : list QRegularExpressionMatch)
  : list MessagePredicate :=
  let st := fold_left parsePredicates_step matches (mkParsing [] [] []) in
  let predicates := predicates st in
  let predicates :=
    if negb (Nat.eqb (length (authors st)) 0)
    then (predicates ++ [AuthorPredicate (authors st)])%list
    else predicates in
  if negb (Nat.eqb (length (channels st)) 0)
  then (predicates ++ [ChannelPredicate (channels st)])%list
  else predicates.

Definition parsePredicates (input : QString) : list MessagePredicate :=
  parsePredicates_matches (globalMatch senv input).

(** The loop over the predicates: [accept] after it; a predicate that
    fails ends it. *)
Fixpoint acceptLoop (predicates : list MessagePredicate) (message : Message) : bool :=
  match predicates with
  | [] => true
  | pred :: rest =>
      if negb (appliesTo senv pred message) then false
      else acceptLoop rest message
  end.

(** Body of the loop over the snapshot. *)
Definition filter_step (predicates : list MessagePredicate)
  (filterSet : FilterSetPtr Message) (channel : Channel Message) (message : Message)
  : Channel Message :=
  let accept := acceptLoop predicates message in
  let accept :=
    match filterSet with
    | Some filterSetFilter =>
        if accept then filterSetFilter message channel else accept
    | None => accept
    end in
  if accept then addMessage channel message else channel.

Definition filter (text channelName : QString) (snapshot : list Message)
  (filterSet : FilterSetPtr Message) : Channel Message :=
  let channel := mkChannel channelName [] in
  let predicates := parsePredicates text in
  fold_left (filter_step predicates filterSet) snapshot channel.

Definition historyName (channelName : QString) : QString :=
  if String.eqb channelName "/whispers" then "whispers"
  else if String.eqb channelName "/mentions" then "mentions"
  else if QString.isEmpty channelName then "<empty>'s"
  else channelName ++ "'s".

Definition updateWindowTitle (popup : SearchPopup Message) : SearchPopup Message :=
  mkSearchPopup (searchInput_text popup) (channelName_ popup) (snapshot_ popup)
    (channelFilters_ popup) (channelView_sourceChannel popup)
    (channelView_channel popup)
    ("Searching in " ++ historyName (channelName_ popup) ++ " history").

End SearchPopupFunctions.

(** Each of the messages is accepted by the predicates, and by the
    filter set on the channel holding the messages before it. *)
Definition keptBy {Message : Type} (senv : SearchEnv Message)
  (predicates : list MessagePredicate) (filterSet : FilterSetPtr Message)
  (channelName : QString) (messages : list Message) : Prop :=
  Forall (fun message => acceptLoop senv predicates message = true) messages
  /\ forall filterSetFilter before message after,
       filterSet = Some filterSetFilter ->
       messages = (before ++ message :: after)%list ->
       filterSetFilter message (mkChannel channelName before) = true.

(** The simple predicate a match stands for, if it is not an author or
    a channel, and the values of the [from:] and [in:] matches. *)
Definition simplePredicate (trim : QString -> QString) (m : QRegularExpressionMatch)
  : option MessagePredicate :=
  let name := capturedName m in
  let value := trim (capturedValue m) in
  if String.eqb name "from" then None
  else if String.eqb name "has" && String.eqb value "link" then Some LinkPredicate
  else if String.eqb name "in" then None
  else if String.eqb name "is" then Some (MessageFlagsPredicate value)
  else if String.eqb name "regex" then Some (RegexPredicate value)
  else Some (SubstringPredicate (captured m)).

Definition valuesOf (trim : QString -> QString) (key : QString)
  (matches : list QRegularExpressionMatch) : list QString :=
  List.map (fun m => trim (capturedValue m))
    (List.filter (fun m => String.eqb (capturedName m) key) matches).

(** A search over messages that are numbers, for the examples. *)
Module SearchSample.

Definition senv : SearchEnv nat := {|
  appliesTo := fun pred message =>
    match pred with
    | SubstringPredicate "even" => Nat.even message
    | SubstringPredicate "small" => Nat.ltb message 10
    | _ => true
    end;
  globalMatch := fun input =>
    if String.eqb input "even small"
    then [mkMatch "" "" "even"; mkMatch "" "" "small"]
    else [];
  removeQuotationMarks := fun value => value
|}.

End SearchSample.

(** ** Properties of [QString::split] as modelled *)

Section Split.

Variable sep : ascii.

Lemma splitKeep_not_nil (s : QString) : QString.splitKeep sep s <> [].
Proof.
  destruct s as [|c s]; simpl; [discriminate|].
  destruct (Ascii.eqb c sep); [discriminate|].
  destruct (QString.splitKeep sep s); discriminate.
Qed.

Lemma splitKeep_length (s : QString) :
  length (QString.splitKeep sep s) = S (QString.count sep s).
Proof.
  induction s as [|c s IH]; simpl; [reflexivity|].
  destruct (Ascii.eqb c sep); simpl; [now rewrite IH|].
  destruct (QString.splitKeep sep s) eqn:E; simpl in *; [discriminate|assumption].
Qed.

Lemma join_splitKeep (s : QString) :
  QString.join sep (QString.splitKeep sep s) = s.
Proof.
  induction s as [|c s IH]; simpl; [reflexivity|].
  destruct (Ascii.eqb c sep) eqn:Ec.
  - apply Ascii.eqb_eq in Ec; subst c.
    pose proof (splitKeep_not_nil s) as Hn.
    destruct (QString.splitKeep sep s) as [|p ps]; [contradiction|].
    simpl. now rewrite <- IH.
  - pose proof (splitKeep_not_nil s) as Hn.
    destruct (QString.splitKeep sep s) as [|p ps]; [contradiction|].
    rewrite <- IH. destruct ps; reflexivity.
Qed.

Lemma splitKeep_parts_free (s : QString) :
  Forall (fun part => QString.count sep part = 0) (QString.splitKeep sep s).
Proof.
  induction s as [|c s IH]; simpl.
  - constructor; [reflexivity|constructor].
  - destruct (Ascii.eqb c sep) eqn:Ec.
    + constructor; [reflexivity|assumption].
    + destruct (QString.splitKeep sep s) as [|p ps].
      * constructor; [simpl; now rewrite Ec|constructor].
      * inversion IH; subst. constructor; [simpl; now rewrite Ec|assumption].
Qed.

Lemma splitKeep_free (s : QString) :
  QString.count sep s = 0 -> QString.splitKeep sep s = [s].
Proof.
  induction s as [|c s IH]; simpl; [reflexivity|].
  destruct (Ascii.eqb c sep); [discriminate|].
  simpl. intros H. now rewrite (IH H).
Qed.

Lemma splitKeep_app (s1 s2 : QString) :
  QString.splitKeep sep (s1 ++ String sep s2)
  = (QString.splitKeep sep s1 ++ QString.splitKeep sep s2)%list.
Proof.
  induction s1 as [|c s1 IH]; simpl.
  - now rewrite Ascii.eqb_refl.
  - destruct (Ascii.eqb c sep); [now rewrite IH|].
    rewrite IH.
    pose proof (splitKeep_not_nil s1) as Hn.
    destruct (QString.splitKeep sep s1); [contradiction|reflexivity].
Qed.

End Split.

Lemma isEmpty_eqb (s : QString) : QString.isEmpty s = String.eqb s "".
Proof. destruct s; reflexivity. Qed.

Lemma parseBadges_step_spec (badges : list Badge) (token : QString) :
  parseBadges_step badges token
  = (badges ++ option_list (spec_badge_of_token token))%list.
Proof.
  unfold parseBadges_step, spec_badge_of_token, QString.split.
  destruct (QString.splitKeep "/" token) as [|p0 [|p1 [|p2 ps]]]; simpl;
    now rewrite ?app_nil_r.
Qed.

Lemma parseBadges_loop_spec (tokens : list QString) (badges : list Badge) :
  fold_left parseBadges_step tokens badges
  = (badges ++ omap spec_badge_of_token tokens)%list.
Proof.
  revert badges.
  induction tokens as [|token tokens IH]; intros badges; simpl.
  - now rewrite app_nil_r.
  - rewrite IH, parseBadges_step_spec.
    destruct (spec_badge_of_token token); simpl;
      now rewrite <- ?app_assoc, ?app_nil_r.
Qed.

Lemma parseBadges_eq_spec (tags : QVariantMap) :
  parseBadges tags = spec_parseBadges tags.
Proof.
  unfold parseBadges, spec_parseBadges, parseTagList.
  destruct (tags !! "badges") as [value|]; [|reflexivity].
  rewrite parseBadges_loop_spec. simpl. f_equal.
  unfold QString.split.
  apply filter_ext. intros token. now rewrite isEmpty_eqb.
Qed.

(** A token yields the badge [name/version] exactly when it is
    [name], one slash, [version], with no further slash. *)
Lemma spec_badge_of_token_iff (token name version : QString) :
  spec_badge_of_token token = Some (mkBadge name version)
  <-> token = name ++ String "/" version
      /\ QString.count "/" name = 0 /\ QString.count "/" version = 0.
Proof.
  unfold spec_badge_of_token. split.
  - intros H.
    pose proof (join_splitKeep "/" token) as Hj.
    pose proof (splitKeep_parts_free "/" token) as Hf.
    destruct (QString.splitKeep "/" token) as [|p0 [|p1 [|p2 ps]]];
      try discriminate.
    injection H as -> ->.
    inversion Hf as [|? ? Hname Hf']. inversion Hf' as [|? ? Hversion ?].
    simpl in Hj. auto.
  - intros (-> & H0 & H1).
    now rewrite splitKeep_app, (splitKeep_free _ _ H0), (splitKeep_free _ _ H1).
Qed.

(** ** Invariants of the loops of [parseHighlights] *)

Ltac unfold_setters :=
  unfold setFlag, setHighlightColor, setHighlightAlert, setHighlightSound,
    setHighlightSoundUrl in *.

Ltac unfold_blocks :=
  unfold userHighlightBody, phraseHighlightBody, badgeHighlightBody,
    subscriptionHighlight, whisperHighlight, subHighlightActive in *;
  unfold_setters.

(** Case analysis on every test of the goal. *)
Ltac split_tests :=
  repeat match goal with
    | |- context [if ?c then _ else _] => destruct c eqn:?
    end;
  simpl in *.

Section LoopInvariants.

Variable env : Env.
Variable this : Incoming.

(** A property kept by the body of a loop is kept by the loop. *)
Lemma userHighlightsLoop_invariant (P : Builder -> Prop) :
  (forall h b, P b -> P (userHighlightBody env h b)) ->
  forall userHighlights b,
    P b -> P (builderOf (userHighlightsLoop env this userHighlights b)).
Proof.
  intros Hbody userHighlights.
  induction userHighlights as [|h rest IH]; intros b Hb; simpl; [exact Hb|].
  destruct (phraseIsMatch env h (nick this)); simpl; [|now apply IH].
  destruct (highlightAlert_ _ && highlightSound_ _); simpl.
  - now apply Hbody.
  - apply IH. now apply Hbody.
Qed.

Lemma phraseHighlightsLoop_invariant (P : Builder -> Prop) :
  (forall h b, P b -> P (phraseHighlightBody env h b)) ->
  forall highlights b,
    P b -> P (phraseHighlightsLoop env this highlights b).
Proof.
  intros Hbody highlights.
  induction highlights as [|h rest IH]; intros b Hb; simpl; [exact Hb|].
  destruct (phraseIsMatch env h (originalMessage_ this)); simpl; [|now apply IH].
  destruct (highlightAlert_ _ && highlightSound_ _); simpl.
  - now apply Hbody.
  - apply IH. now apply Hbody.
Qed.

Lemma badgesLoop_invariant (P : Builder * bool -> Prop) :
  (forall h s, P s -> P (badgeHighlightBody env h s)) ->
  forall h badges s, P s -> P (badgesLoop env h badges s).
Proof.
  intros Hbody h badges.
  induction badges as [|badge rest IH]; intros s Hs; simpl; [exact Hs|].
  destruct (badgeIsMatch env h badge); simpl; [|now apply IH].
  destruct (highlightAlert_ _ && highlightSound_ _); simpl.
  - now apply Hbody.
  - apply IH. now apply Hbody.
Qed.

Lemma badgeHighlightsLoop_invariant (P : Builder * bool -> Prop) :
  (forall h s, P s -> P (badgeHighlightBody env h s)) ->
  forall badgeHighlights badges s,
    P s -> P (badgeHighlightsLoop env badgeHighlights badges s).
Proof.
  intros Hbody badgeHighlights badges.
  induction badgeHighlights as [|h rest IH]; intros s Hs; simpl; [exact Hs|].
  apply IH. now apply badgesLoop_invariant.
Qed.

(** *** The subscription colour guard *)

Lemma userHighlightBody_colorGuarded b0 h b :
  colorGuarded env b0 b -> colorGuarded env b0 (userHighlightBody env h b).
Proof.
  unfold colorGuarded. intros [Hs Hc]. unfold_blocks.
  destruct b as [[] ? ? ? ?]; simpl in *.
  all: rewrite ?Hs; split_tests; auto; congruence.
Qed.

Lemma phraseHighlightBody_colorGuarded b0 h b :
  colorGuarded env b0 b -> colorGuarded env b0 (phraseHighlightBody env h b).
Proof.
  unfold colorGuarded. intros [Hs Hc]. unfold_blocks.
  destruct b as [[] ? ? ? ?]; simpl in *.
  all: rewrite ?Hs; split_tests; auto; congruence.
Qed.

Lemma badgeHighlightBody_colorGuarded b0 h s :
  colorGuarded env b0 (fst s) -> colorGuarded env b0 (fst (badgeHighlightBody env h s)).
Proof.
  unfold colorGuarded. destruct s as [b latch]. intros [Hs Hc]. unfold_blocks.
  destruct b as [[] ? ? ? ?]; simpl in *.
  all: rewrite ?Hs; split_tests; auto; congruence.
Qed.

End LoopInvariants.

(** ** The sound URL *)

Section SoundUrl.

Variable env : Env.
Variable this : Incoming.

Lemma phraseHighlightBody_soundKept b0 h b :
  soundKept b0 b -> soundKept b0 (phraseHighlightBody env h b).
Proof.
  unfold soundKept. intros [Hs Hu]. unfold_blocks.
  destruct b as [? ? ? sound ?]; simpl in *; subst sound.
  split_tests; auto; rewrite ?andb_false_r in *; congruence.
Qed.

Lemma badgeHighlightBody_soundKept b0 h s :
  soundKept b0 (fst s) -> soundKept b0 (fst (badgeHighlightBody env h s)).
Proof.
  unfold soundKept. destruct s as [b latch]. intros [Hs Hu]. unfold_blocks.
  destruct b as [? ? ? sound ?]; simpl in *; subst sound.
  split_tests; auto; rewrite ?andb_false_r in *; congruence.
Qed.

Lemma phraseHighlightsLoop_soundKept highlights b :
  highlightSound_ b = true ->
  soundKept b (phraseHighlightsLoop env this highlights b).
Proof.
  intros Hs.
  apply (phraseHighlightsLoop_invariant env this (soundKept b)).
  - intros h b'. apply phraseHighlightBody_soundKept.
  - split; [exact Hs|reflexivity].
Qed.

Lemma badgeHighlightsLoop_soundKept badgeHighlights badges b latch :
  highlightSound_ b = true ->
  soundKept b (fst (badgeHighlightsLoop env badgeHighlights badges (b, latch))).
Proof.
  intros Hs.
  apply (badgeHighlightsLoop_invariant env (fun s => soundKept b (fst s))).
  - intros h s. apply badgeHighlightBody_soundKept.
  - split; [exact Hs|reflexivity].
Qed.

Lemma phraseHighlightBody_takes_sound h b :
  highlightSound_ b = false ->
  HighlightPhrase.hasSound h = true ->
  highlightSound_ (phraseHighlightBody env h b) = true
  /\ highlightSoundUrl_ (phraseHighlightBody env h b) = soundUrlOf env h.
Proof.
  intros Hs Hh. unfold soundUrlOf. unfold_blocks.
  destruct b as [? ? ? sound ?]; simpl in *; subst sound. rewrite Hh.
  split_tests; auto; congruence.
Qed.

Lemma phraseHighlightBody_no_sound h b :
  highlightSound_ b = false ->
  HighlightPhrase.hasSound h = false ->
  highlightSound_ (phraseHighlightBody env h b) = false
  /\ highlightSoundUrl_ (phraseHighlightBody env h b) = highlightSoundUrl_ b.
Proof.
  intros Hs Hh. unfold_blocks.
  destruct b as [? ? ? sound ?]; simpl in *; subst sound. rewrite Hh.
  split_tests; auto; congruence.
Qed.

(** In the phrase loop the URL is written at most once: by the first
    matching rule that asks for a sound, when none was requested
    before. *)
Lemma phraseHighlightsLoop_first_sound highlights b :
  highlightSound_ b = false ->
  let r := phraseHighlightsLoop env this highlights b in
  match List.find (fun h => phraseIsMatch env h (originalMessage_ this)
                            && HighlightPhrase.hasSound h) highlights with
  | Some h => highlightSound_ r = true /\ highlightSoundUrl_ r = soundUrlOf env h
  | None => highlightSound_ r = false /\ highlightSoundUrl_ r = highlightSoundUrl_ b
  end.
Proof.
  revert b.
  induction highlights as [|h rest IH]; intros b Hs; simpl; [auto|].
  destruct (phraseIsMatch env h (originalMessage_ this)); simpl;
    [|now apply IH].
  destruct (HighlightPhrase.hasSound h) eqn:Hh.
  - destruct (phraseHighlightBody_takes_sound h b Hs Hh) as [Hs' Hu'].
    destruct (highlightAlert_ _ && highlightSound_ _); [auto|].
    destruct (phraseHighlightsLoop_soundKept rest _ Hs') as [Hs2 Hu2].
    split; congruence.
  - destruct (phraseHighlightBody_no_sound h b Hs Hh) as [Hs' Hu'].
    rewrite Hs', andb_false_r.
    specialize (IH _ Hs'). simpl in IH. rewrite Hu' in IH. exact IH.
Qed.

End SoundUrl.

(** ** The categories of [parseHighlights] *)

Section Categories.

Variable env : Env.
Variable this : Incoming.

Lemma subscriptionHighlight_subHighlightActive b :
  subHighlightActive env (subscriptionHighlight env b) = subHighlightActive env b.
Proof.
  unfold_blocks. destruct b as [[] ? ? ? ?]; simpl.
  all: split_tests; auto.
Qed.

Lemma subscriptionHighlight_color b :
  subHighlightActive env b = true ->
  highlightColor (subscriptionHighlight env b) = color env ColorType.Subscription.
Proof.
  unfold_blocks. intros ->. split_tests; reflexivity.
Qed.

Lemma subscriptionHighlight_inactive b :
  subHighlightActive env b = false -> subscriptionHighlight env b = b.
Proof. unfold_blocks. now intros ->. Qed.

Lemma whisperHighlight_flags b :
  flags (whisperHighlight env this b) = flags b.
Proof. unfold_blocks. split_tests; reflexivity. Qed.

Lemma whisperHighlight_color b :
  highlightColor (whisperHighlight env this b)
  = if isReceivedWhisper this && enableWhisperHighlight (getSettings env)
    then color env ColorType.Whisper
    else highlightColor b.
Proof. unfold_blocks. split_tests; reflexivity. Qed.

Lemma whisperHighlight_subHighlightActive b :
  subHighlightActive env (whisperHighlight env this b) = subHighlightActive env b.
Proof. unfold subHighlightActive. now rewrite whisperHighlight_flags. Qed.

Lemma userHighlightsLoop_colorGuarded userHighlights b :
  subHighlightActive env b = true ->
  colorGuarded env b (builderOf (userHighlightsLoop env this userHighlights b)).
Proof.
  intros Hs.
  apply (userHighlightsLoop_invariant env this (colorGuarded env b)).
  - intros h b'. apply userHighlightBody_colorGuarded.
  - split; [exact Hs|reflexivity].
Qed.

Lemma phraseHighlightsLoop_colorGuarded highlights b :
  subHighlightActive env b = true ->
  colorGuarded env b (phraseHighlightsLoop env this highlights b).
Proof.
  intros Hs.
  apply (phraseHighlightsLoop_invariant env this (colorGuarded env b)).
  - intros h b'. apply phraseHighlightBody_colorGuarded.
  - split; [exact Hs|reflexivity].
Qed.

Lemma badgeHighlightsLoop_colorGuarded badgeHighlights badges b latch :
  subHighlightActive env b = true ->
  colorGuarded env b
    (fst (badgeHighlightsLoop env badgeHighlights badges (b, latch))).
Proof.
  intros Hs.
  apply (badgeHighlightsLoop_invariant env (fun s => colorGuarded env b (fst s))).
  - intros h s. apply badgeHighlightBody_colorGuarded.
  - split; [exact Hs|reflexivity].
Qed.

(** With the guard up, the colour at the end of the pass is the one
    the whisper block left. *)
Lemma parseHighlights_color_guarded b :
  subHighlightActive env b = true ->
  isBlacklistedUser (getCSettings env) (nick this) = false ->
  highlightColor (parseHighlights env this b)
  = highlightColor (whisperHighlight env this (subscriptionHighlight env b)).
Proof.
  intros Hs Hb. unfold parseHighlights. rewrite Hb.
  set (b1 := whisperHighlight env this (subscriptionHighlight env b)).
  assert (H1 : subHighlightActive env b1 = true).
  { subst b1.
    now rewrite whisperHighlight_subHighlightActive,
      subscriptionHighlight_subHighlightActive. }
  pose proof (userHighlightsLoop_colorGuarded
                (highlightedUsers (getCSettings env)) b1 H1) as [H2 Hc2].
  destruct (userHighlightsLoop env this _ b1) as [b2|b2]; simpl in *;
    [|exact Hc2].
  destruct (String.eqb _ _); [exact Hc2|].
  pose proof (phraseHighlightsLoop_colorGuarded (activeHighlights env) b2 H2)
    as [H3 Hc3].
  unfold badgeHighlight.
  pose proof (badgeHighlightsLoop_colorGuarded
                (highlightedBadges (getCSettings env))
                (parseBadges (tags this)) _ false H3) as [_ Hc4].
  congruence.
Qed.

Lemma userHighlightsLoop_app pre post b :
  userHighlightsLoop env this (pre ++ post) b
  = match userHighlightsLoop env this pre b with
    | Continue b' => userHighlightsLoop env this post b'
    | Return b' => Return b'
    end.
Proof.
  revert b. induction pre as [|h pre IH]; intros b; simpl; [reflexivity|].
  destruct (phraseIsMatch env h (nick this)); simpl; [|apply IH].
  destruct (highlightAlert_ _ && highlightSound_ _); [reflexivity|apply IH].
Qed.

End Categories.

(** ** The sound URL across categories *)

(** C1, as stated, fails: a whisper from [alice] stores the whisper
    sound URL and requests the sound; the per-user rule for [alice],
    evaluated next, stores its own URL over it, and that URL is the
    final one. *)
Lemma user_rule_overwrites_whisper_sound_url :
  let env := Sample.env [Sample.aliceRule] true in
  let this := Sample.whisper "alice" "hi" in
  let afterWhisper :=
    whisperHighlight env this (subscriptionHighlight env (Sample.fresh Sample.noFlags)) in
  highlightSound_ afterWhisper = true
  /\ highlightSoundUrl_ afterWhisper = Url "whisper.wav"
  /\ highlightSoundUrl_ (parseHighlights env this (Sample.fresh Sample.noFlags))
     = Url "user.wav"
  /\ highlightSoundUrl_ (parseHighlights env this (Sample.fresh Sample.noFlags))
     <> highlightSoundUrl_ afterWhisper.
Proof. vm_compute. repeat split; congruence. Qed.

(** C1 (amended): once a sound is requested, neither the phrase
    category nor the badge category overwrites the stored sound URL;
    with no sound requested before, the phrase category stores the URL
    of its first matching rule that asks for a sound and no other; a
    matching per-user rule that asks for a sound stores its own URL
    whatever was stored before. *)
Theorem sound_url_first_writer_from_phrases_on (env : Env) (this : Incoming) :
  (forall b, highlightSound_ b = true ->
     (forall highlights, soundKept b (phraseHighlightsLoop env this highlights b))
     /\ (forall badgeHighlights badges latch,
           soundKept b (fst (badgeHighlightsLoop env badgeHighlights badges (b, latch))))
     /\ soundKept b
          (badgeHighlight env this (phraseHighlightsLoop env this (activeHighlights env) b)))
  /\ (forall b highlights, highlightSound_ b = false ->
        let r := phraseHighlightsLoop env this highlights b in
        match List.find (fun h => phraseIsMatch env h (originalMessage_ this)
                                  && HighlightPhrase.hasSound h) highlights with
        | Some h => highlightSound_ r = true /\ highlightSoundUrl_ r = soundUrlOf env h
        | None => highlightSound_ r = false /\ highlightSoundUrl_ r = highlightSoundUrl_ b
        end)
  /\ (forall b h, HighlightPhrase.hasSound h = true ->
        highlightSound_ (userHighlightBody env h b) = true
        /\ highlightSoundUrl_ (userHighlightBody env h b) = soundUrlOf env h).
Proof.
  split; [|split].
  - intros b Hs. split; [|split].
    + intros highlights. now apply phraseHighlightsLoop_soundKept.
    + intros badgeHighlights badges latch. now apply badgeHighlightsLoop_soundKept.
    + destruct (phraseHighlightsLoop_soundKept env this (activeHighlights env) b Hs)
        as [Hs1 Hu1].
      destruct (badgeHighlightsLoop_soundKept env
                  (highlightedBadges (getCSettings env)) (parseBadges (tags this))
                  _ false Hs1) as [Hs2 Hu2].
      unfold badgeHighlight, soundKept. split; congruence.
  - intros b highlights Hs. now apply phraseHighlightsLoop_first_sound.
  - intros b h Hh. unfold soundUrlOf. unfold_blocks. rewrite Hh.
    split_tests; auto.
Qed.

Lemma sound_url_first_writer_from_phrases_on_witness :
  let env := Sample.env [] true in
  let this := Sample.whisper "alice" "hello" in
  let b := mkBuilder Sample.noFlags None false true (Url "whisper.wav") in
  soundKept b
    (badgeHighlight env this (phraseHighlightsLoop env this (activeHighlights env) b))
  /\ highlightSoundUrl_
       (phraseHighlightsLoop env this [Sample.helloPhrase; Sample.bobRule]
          (Sample.fresh Sample.noFlags))
     = highlightSoundUrl_ (Sample.fresh Sample.noFlags)
  /\ highlightSoundUrl_ (userHighlightBody env Sample.aliceRule b) = Url "user.wav".
Proof.
  intros env this b.
  destruct (sound_url_first_writer_from_phrases_on env this) as (H1 & H2 & H3).
  split; [|split].
  - apply (H1 b). reflexivity.
  - apply (H2 (Sample.fresh Sample.noFlags) [Sample.helloPhrase; Sample.bobRule]).
    reflexivity.
  - apply (H3 b Sample.aliceRule). reflexivity.
Defined.

(** ** The subscription colour *)

(** C2, as stated, fails: a message flagged as a subscription that is
    also a received whisper gets the Subscription colour from the first
    category and the Whisper colour from the whisper block, which is
    not guarded. *)
Lemma whisper_overwrites_subscription_color :
  let env := Sample.env [Sample.aliceRule] true in
  let this := Sample.whisper "alice" "hi" in
  let b := Sample.fresh Sample.subscriptionFlags in
  Flags.has (flags b) MessageFlag.Subscription = true
  /\ enableSubHighlight (getSettings env) = true
  /\ highlightColor (subscriptionHighlight env b) = color env ColorType.Subscription
  /\ highlightColor (parseHighlights env this b) = color env ColorType.Whisper
  /\ highlightColor (parseHighlights env this b)
     <> highlightColor (subscriptionHighlight env b).
Proof. vm_compute. repeat split; congruence. Qed.

(** C2 (amended): for a message flagged as a subscription, resolved
    with the sub-highlight setting enabled, the per-user, phrase and
    badge categories never overwrite the colour; the whisper block,
    reached when the sender is not blacklisted and the message is a
    received whisper with whisper highlights enabled, stores the
    Whisper colour. So the colour at the end of the pass is the Whisper
    colour in that case and the Subscription colour in every other. *)
Theorem subscription_color_survives_rules (env : Env) (this : Incoming) (b : Builder) :
  Flags.has (flags b) MessageFlag.Subscription = true ->
  enableSubHighlight (getSettings env) = true ->
  highlightColor (parseHighlights env this b)
  = if negb (isBlacklistedUser (getCSettings env) (nick this))
       && (isReceivedWhisper this && enableWhisperHighlight (getSettings env))
    then color env ColorType.Whisper
    else color env ColorType.Subscription.
Proof.
  intros Hf He.
  assert (Hs : subHighlightActive env b = true).
  { unfold subHighlightActive. now rewrite Hf, He. }
  destruct (isBlacklistedUser (getCSettings env) (nick this)) eqn:Hb; simpl.
  - unfold parseHighlights. rewrite Hb. now apply subscriptionHighlight_color.
  - rewrite (parseHighlights_color_guarded env this b Hs Hb).
    rewrite whisperHighlight_color.
    destruct (isReceivedWhisper this && _); [reflexivity|].
    now apply subscriptionHighlight_color.
Qed.

Lemma subscription_color_survives_rules_witness :
  highlightColor
    (parseHighlights (Sample.env [Sample.aliceRule] true)
       {| nick := "alice"; originalMessage_ := "hello"; isReceivedWhisper := false;
          tags := {[ "badges" := "moderator/1" ]}; channelName := "forsen" |}
       (Sample.fresh Sample.subscriptionFlags))
  = Some (mkQColor 1).
Proof.
  apply (subscription_color_survives_rules (Sample.env [Sample.aliceRule] true)
           {| nick := "alice"; originalMessage_ := "hello"; isReceivedWhisper := false;
              tags := {[ "badges" := "moderator/1" ]}; channelName := "forsen" |}
           (Sample.fresh Sample.subscriptionFlags)); reflexivity.
Defined.

(** C3: for a message flagged as a subscription, resolved with the
    sub-highlight setting enabled, no per-user, phrase or badge rule
    replaces the colour: not one application of a rule, not a whole
    loop, and the colour at the end of the pass is the one the blocks
    before the rules left. *)
Theorem rule_colors_guarded_by_subscription (env : Env) (this : Incoming) (b : Builder) :
  Flags.has (flags b) MessageFlag.Subscription = true ->
  enableSubHighlight (getSettings env) = true ->
  (forall h, highlightColor (userHighlightBody env h b) = highlightColor b)
  /\ (forall h, highlightColor (phraseHighlightBody env h b) = highlightColor b)
  /\ (forall h latch,
        highlightColor (fst (badgeHighlightBody env h (b, latch))) = highlightColor b)
  /\ (forall userHighlights,
        highlightColor (builderOf (userHighlightsLoop env this userHighlights b))
        = highlightColor b)
  /\ (forall highlights,
        highlightColor (phraseHighlightsLoop env this highlights b) = highlightColor b)
  /\ (forall badgeHighlights badges latch,
        highlightColor (fst (badgeHighlightsLoop env badgeHighlights badges (b, latch)))
        = highlightColor b)
  /\ (isBlacklistedUser (getCSettings env) (nick this) = false ->
      highlightColor (parseHighlights env this b)
      = highlightColor (whisperHighlight env this (subscriptionHighlight env b))).
Proof.
  intros Hf He.
  assert (Hs : subHighlightActive env b = true).
  { unfold subHighlightActive. now rewrite Hf, He. }
  assert (Hg : colorGuarded env b b) by (split; [exact Hs|reflexivity]).
  repeat split.
  - intros h. apply (userHighlightBody_colorGuarded env b h b Hg).
  - intros h. apply (phraseHighlightBody_colorGuarded env b h b Hg).
  - intros h latch. apply (badgeHighlightBody_colorGuarded env b h (b, latch) Hg).
  - intros userHighlights. now apply userHighlightsLoop_colorGuarded.
  - intros highlights. now apply phraseHighlightsLoop_colorGuarded.
  - intros badgeHighlights badges latch. now apply badgeHighlightsLoop_colorGuarded.
  - intros Hb. now apply parseHighlights_color_guarded.
Qed.

Lemma rule_colors_guarded_by_subscription_witness :
  let env := Sample.env [Sample.aliceRule] true in
  let this := Sample.whisper "alice" "hello" in
  let b := subscriptionHighlight env (Sample.fresh Sample.subscriptionFlags) in
  highlightColor (builderOf (userHighlightsLoop env this [Sample.aliceRule] b))
  = highlightColor b
  /\ highlightColor (phraseHighlightsLoop env this [Sample.helloPhrase] b)
     = highlightColor b.
Proof.
  intros env this b.
  destruct (rule_colors_guarded_by_subscription env this b)
    as (_ & _ & _ & Hu & Hp & _); [reflexivity|reflexivity|].
  split; [apply Hu|apply Hp].
Defined.

(** ** Early returns *)

(** C4: for a sender on the blacklist the pass ends after the
    subscription category; its result is that category's, and the
    builder is untouched when that category does not apply. *)
Theorem blacklisted_sender_stops_after_subscription
  (env : Env) (this : Incoming) (b : Builder) :
  isBlacklistedUser (getCSettings env) (nick this) = true ->
  parseHighlights env this b = subscriptionHighlight env b
  /\ (subHighlightActive env b = false -> parseHighlights env this b = b).
Proof.
  intros Hb.
  assert (H : parseHighlights env this b = subscriptionHighlight env b).
  { unfold parseHighlights. now rewrite Hb. }
  split; [exact H|].
  intros Hs. rewrite H. now apply subscriptionHighlight_inactive.
Qed.

Lemma blacklisted_sender_stops_after_subscription_witness :
  parseHighlights (Sample.env [Sample.aliceRule] true) (Sample.whisper "troll" "hello")
    (Sample.fresh Sample.noFlags)
  = Sample.fresh Sample.noFlags.
Proof.
  apply (blacklisted_sender_stops_after_subscription
           (Sample.env [Sample.aliceRule] true) (Sample.whisper "troll" "hello")
           (Sample.fresh Sample.noFlags)); reflexivity.
Defined.

(** C5, as stated, fails: the test on alert and sound is made after a
    rule that matched, not after each rule. Here the whisper block has
    set both; the only per-user rule does not match the sender, the
    loop falls through, and the phrase category highlights the
    message. *)
Lemma unmatched_user_rule_does_not_return :
  let env := Sample.env [Sample.bobRule] true in
  let this := Sample.whisper "alice" "hello" in
  let b := whisperHighlight env this
             (subscriptionHighlight env (Sample.fresh Sample.noFlags)) in
  highlightAlert_ b = true
  /\ highlightSound_ b = true
  /\ userHighlightsLoop env this (highlightedUsers (getCSettings env)) b = Continue b
  /\ ~ isHighlighted b
  /\ isHighlighted (parseHighlights env this (Sample.fresh Sample.noFlags))
  /\ highlightColor (parseHighlights env this (Sample.fresh Sample.noFlags))
     = HighlightPhrase.getColor Sample.helloPhrase.
Proof. vm_compute. repeat split; try reflexivity. discriminate. Qed.

(** C5 (amended): in the per-user category, after a rule that matches
    the sender's name has been applied, if both the alert and the sound
    are requested, the scan of the per-user rules stops and the pass
    returns at once with that builder: the rules after it, the self
    check, the phrase category and the badge category are skipped. A
    rule that does not match is passed over without that test. *)
Theorem satisfied_user_rule_returns (env : Env) (this : Incoming) :
  (forall b pre h post b2,
     isBlacklistedUser (getCSettings env) (nick this) = false ->
     highlightedUsers (getCSettings env) = (pre ++ h :: post)%list ->
     userHighlightsLoop env this pre
       (whisperHighlight env this (subscriptionHighlight env b)) = Continue b2 ->
     phraseIsMatch env h (nick this) = true ->
     highlightAlert_ (userHighlightBody env h b2)
     && highlightSound_ (userHighlightBody env h b2) = true ->
     userHighlightsLoop env this (pre ++ h :: post)
       (whisperHighlight env this (subscriptionHighlight env b))
     = Return (userHighlightBody env h b2)
     /\ parseHighlights env this b = userHighlightBody env h b2)
  /\ (forall b h rest,
        phraseIsMatch env h (nick this) = false ->
        userHighlightsLoop env this (h :: rest) b = userHighlightsLoop env this rest b).
Proof.
  split.
  - intros b pre h post b2 Hb Hu Hpre Hm Hsat.
    assert (H : userHighlightsLoop env this (pre ++ h :: post)
                  (whisperHighlight env this (subscriptionHighlight env b))
                = Return (userHighlightBody env h b2)).
    { rewrite userHighlightsLoop_app, Hpre. simpl. now rewrite Hm, Hsat. }
    split; [exact H|].
    unfold parseHighlights. now rewrite Hb, Hu, H.
  - intros b h rest Hm. simpl. now rewrite Hm.
Qed.

Lemma satisfied_user_rule_returns_witness :
  let env := Sample.env [Sample.aliceRule; Sample.bobRule; Sample.aliceRule] true in
  let this := Sample.whisper "bob" "hello" in
  let b := Sample.fresh Sample.noFlags in
  parseHighlights env this b
  = userHighlightBody env Sample.bobRule
      (whisperHighlight env this (subscriptionHighlight env b))
  /\ userHighlightsLoop env this [Sample.aliceRule; Sample.bobRule] b
     = userHighlightsLoop env this [Sample.bobRule] b.
Proof.
  intros env this b.
  destruct (satisfied_user_rule_returns env this) as [H1 H2].
  split.
  - apply (H1 b [Sample.aliceRule] Sample.bobRule [Sample.aliceRule]
             (whisperHighlight env this (subscriptionHighlight env b)));
      reflexivity.
  - apply (H2 b Sample.aliceRule [Sample.bobRule]). reflexivity.
Defined.

(** C6: when the sender's name is the current user's, the pass returns
    no later than the self check: its result is the builder the
    per-user category left (or the subscription category, for a
    blacklisted sender), whatever the phrase rules, the badge rules
    and the tags are. *)
Theorem own_message_returns_before_phrases (env : Env) (this : Incoming) (b : Builder) :
  nick this = getUserName (getCurrent env) ->
  parseHighlights env this b
  = if isBlacklistedUser (getCSettings env) (nick this)
    then subscriptionHighlight env b
    else builderOf
           (userHighlightsLoop env this (highlightedUsers (getCSettings env))
              (whisperHighlight env this (subscriptionHighlight env b))).
Proof.
  intros Hn. unfold parseHighlights.
  destruct (isBlacklistedUser _ _); [reflexivity|].
  destruct (userHighlightsLoop env this _ _) as [b'|b']; simpl; [|reflexivity].
  now rewrite Hn, String.eqb_refl.
Qed.

Lemma own_message_returns_before_phrases_witness :
  let env := Sample.env [Sample.aliceRule] true in
  let this := {| nick := "me"; originalMessage_ := "hello"; isReceivedWhisper := false;
                 tags := {[ "badges" := "moderator/1" ]}; channelName := "forsen" |} in
  parseHighlights env this (Sample.fresh Sample.noFlags) = Sample.fresh Sample.noFlags.
Proof.
  intros env this.
  apply (own_message_returns_before_phrases env this (Sample.fresh Sample.noFlags)).
  reflexivity.
Defined.

(** ** The badge parser *)

Lemma spec_badge_of_token_two_parts (token : QString) :
  is_Some (spec_badge_of_token token)
  <-> length (QString.splitKeep "/" token) = 2.
Proof.
  unfold spec_badge_of_token.
  destruct (QString.splitKeep "/" token) as [|p0 [|p1 [|p2 ps]]]; simpl;
    split; intros H; try discriminate; try (destruct H; discriminate); eauto.
Qed.

Lemma parseBadges_insert_app (tags : QVariantMap) (value1 value2 : QString) :
  parseBadges (<["badges" := value1 ++ String "," value2]> tags)
  = (parseBadges (<["badges" := value1]> tags)
     ++ parseBadges (<["badges" := value2]> tags))%list.
Proof.
  rewrite !parseBadges_eq_spec. unfold spec_parseBadges.
  rewrite !lookup_insert_eq.
  now rewrite splitKeep_app, List.filter_app, omap_app.
Qed.

(** C7: the badge parser returns the badges of the tokens of the
    [badges] value: the value split on commas, the empty tokens
    skipped, each token kept exactly when it splits on [/] into two
    parts, that is when it is a name, one slash and a version; nothing
    is reported for the other tokens, and the badges come in the order
    of the tokens. *)
Theorem parseBadges_keeps_well_formed_tokens :
  (forall tags, parseBadges tags = spec_parseBadges tags)
  /\ (forall token,
        is_Some (spec_badge_of_token token)
        <-> length (QString.splitKeep "/" token) = 2)
  /\ (forall token name version,
        spec_badge_of_token token = Some (mkBadge name version)
        <-> token = name ++ String "/" version
            /\ QString.count "/" name = 0 /\ QString.count "/" version = 0)
  /\ (forall (tags : QVariantMap) value1 value2,
        parseBadges (<["badges" := value1 ++ String "," value2]> tags)
        = (parseBadges (<["badges" := value1]> tags)
           ++ parseBadges (<["badges" := value2]> tags))%list)
  /\ (forall tags : QVariantMap, tags !! "badges" = None -> parseBadges tags = [])
  /\ (forall tags : QVariantMap,
        tags !! "badges" = Some "malformed,subscriber/12" ->
        parseBadges tags = [mkBadge "subscriber" "12"]).
Proof.
  split; [exact parseBadges_eq_spec|].
  split; [exact spec_badge_of_token_two_parts|].
  split; [exact spec_badge_of_token_iff|].
  split; [exact parseBadges_insert_app|].
  split; intros tags H; unfold parseBadges, parseTagList; now rewrite H.
Qed.

Lemma parseBadges_keeps_well_formed_tokens_witness :
  parseBadges {[ "badges" := "malformed,subscriber/12"; "color" := "#FF0000" ]}
  = [mkBadge "subscriber" "12"]
  /\ parseBadges {[ "color" := "#FF0000" ]} = [].
Proof.
  destruct parseBadges_keeps_well_formed_tokens as (_ & _ & _ & _ & Habsent & Hd).
  split; [apply Hd|apply Habsent]; reflexivity.
Defined.

(** ** The fallback sound *)

(** C9: the fallback sound resolver is a total function to URLs: the
    local-file URL of the configured path when the custom sound option
    is on and the path exists and is a regular file, the built-in
    [qrc:/sounds/ping2.wav] in every other case. *)
Theorem getFallbackHighlightSound_cases (env : Env) :
  let path := pathHighlightSound (getSettings env) in
  (customHighlightSound (getSettings env) = true ->
   QFileInfo_exists env path = true ->
   QFileInfo_isFile env path = true ->
   getFallbackHighlightSound env = fromLocalFile path)
  /\ (customHighlightSound (getSettings env) = false
      \/ QFileInfo_exists env path = false
      \/ QFileInfo_isFile env path = false ->
      getFallbackHighlightSound env = Url "qrc:/sounds/ping2.wav").
Proof.
  unfold getFallbackHighlightSound. simpl. split.
  - now intros -> -> ->.
  - intros [-> | [-> | ->]]; simpl; rewrite ?andb_false_r; reflexivity.
Qed.

Lemma getFallbackHighlightSound_cases_witness :
  getFallbackHighlightSound
    (Sample.envWith (Sample.settingsWith true "/home/me/ping.wav") [] true)
  = fromLocalFile "/home/me/ping.wav"
  /\ getFallbackHighlightSound
       (Sample.envWith (Sample.settingsWith true "/home/me/gone.wav") [] true)
     = Url "qrc:/sounds/ping2.wav".
Proof.
  split.
  - apply (getFallbackHighlightSound_cases
             (Sample.envWith (Sample.settingsWith true "/home/me/ping.wav") [] true));
      reflexivity.
  - apply (getFallbackHighlightSound_cases
             (Sample.envWith (Sample.settingsWith true "/home/me/gone.wav") [] true)).
    right. left. reflexivity.
Defined.

(** ** The notification dispatcher *)

(** C8, as stated, fails: off the GUI thread [getPlayer] gives no
    player, and no playback is requested although the sound is
    requested and the application has no focus. *)
Lemma no_player_no_playback :
  let env := Sample.env [] false in
  let this := Sample.whisper "alice" "hello" in
  let b := mkBuilder Sample.noFlags None true true (Url "user.wav") in
  muted env this = false
  /\ highlightSound_ b = true
  /\ focusWidgetIsSet env = false
  /\ triggerHighlights env this b (Url "") = ([SendAlert], Url "")
  /\ ~ In Play (fst (triggerHighlights env this b (Url ""))).
Proof.
  vm_compute. repeat split; try reflexivity.
  intros [H | []]. discriminate.
Qed.

(** C8 (amended): the dispatcher makes no call when streamer mode is
    active with mention-muting enabled, or when the channel is muted.
    Otherwise playback is requested if and only if the sound is
    requested, the application is not focused or the always-play
    setting is on, and a player is available (the call is made on the
    GUI thread); the alert fires if and only if it is requested,
    whatever the focus. The player is started at most once, given a
    new URL at most once, and the alert is sent at most once. *)
Theorem triggerHighlights_dispatch
  (env : Env) (this : Incoming) (b : Builder) (currentPlayerUrl : QUrl) :
  let out := fst (triggerHighlights env this b currentPlayerUrl) in
  (muted env this = true ->
   triggerHighlights env this b currentPlayerUrl = ([], currentPlayerUrl))
  /\ (muted env this = false ->
      (In Play out <->
         highlightSound_ b = true
         /\ (focusWidgetIsSet env = false
             \/ highlightAlwaysPlaySound (getSettings env) = true)
         /\ isGuiThread env = true)
      /\ (In SendAlert out <-> highlightAlert_ b = true))
  /\ calls isPlay out <= 1
  /\ calls isSendAlert out <= 1
  /\ calls isSetMedia out <= 1.
Proof.
  unfold triggerHighlights, muted, getPlayer, calls.
  destruct (isInStreamerMode env), (streamerModeMuteMentions (getSettings env)),
    (isMutedChannel (getCSettings env) (channelName this)),
    (highlightSound_ b), (focusWidgetIsSet env),
    (highlightAlwaysPlaySound (getSettings env)), (isGuiThread env),
    (highlightAlert_ b),
    (QUrl_equal env currentPlayerUrl (highlightSoundUrl_ b));
    simpl; repeat split; intros; try discriminate; try lia; auto;
    repeat match goal with
      | H : _ \/ _ |- _ => destruct H
      | H : _ /\ _ |- _ => destruct H
      | H : False |- _ => destruct H
      end; try discriminate; auto.
Qed.

Lemma triggerHighlights_dispatch_witness :
  let env := Sample.env [] true in
  let b := mkBuilder Sample.noFlags None true true (Url "user.wav") in
  triggerHighlights env
    {| nick := "alice"; originalMessage_ := "hello"; isReceivedWhisper := false;
       tags := ∅; channelName := "quiet" |} b (Url "")
  = ([], Url "")
  /\ In Play (fst (triggerHighlights env (Sample.whisper "alice" "hello") b (Url ""))).
Proof.
  intros env b. split.
  - apply (triggerHighlights_dispatch env
             {| nick := "alice"; originalMessage_ := "hello"; isReceivedWhisper := false;
                tags := ∅; channelName := "quiet" |} b (Url "")).
    reflexivity.
  - destruct (triggerHighlights_dispatch env (Sample.whisper "alice" "hello") b (Url ""))
      as (_ & H & _).
    apply H; [reflexivity|]. repeat split; auto.
Defined.

(** ** The Highlighted flag *)

Section HighlightedFlag.

Variable env : Env.
Variable this : Incoming.

Lemma userHighlightBody_isHighlighted h b :
  isHighlighted (userHighlightBody env h b).
Proof. unfold isHighlighted. unfold_blocks. split_tests; reflexivity. Qed.

Lemma phraseHighlightBody_isHighlighted h b :
  isHighlighted (phraseHighlightBody env h b).
Proof. unfold isHighlighted. unfold_blocks. split_tests; reflexivity. Qed.

Lemma badgeHighlightBody_flagged h s :
  latchImpliesFlag s ->
  snd (badgeHighlightBody env h s) = true
  /\ isHighlighted (fst (badgeHighlightBody env h s)).
Proof.
  unfold latchImpliesFlag, isHighlighted. destruct s as [b latch]. simpl.
  intros H. unfold_blocks.
  destruct latch; simpl; [specialize (H eq_refl)|]; split_tests; auto.
Qed.

Lemma userHighlightsLoop_isHighlighted userHighlights b :
  Exists (fun h => phraseIsMatch env h (nick this) = true) userHighlights ->
  isHighlighted (builderOf (userHighlightsLoop env this userHighlights b)).
Proof.
  revert b.
  induction userHighlights as [|h rest IH]; intros b Hex; simpl;
    [inversion Hex|].
  destruct (phraseIsMatch env h (nick this)) eqn:Hm; simpl.
  - destruct (highlightAlert_ _ && highlightSound_ _); simpl.
    + apply userHighlightBody_isHighlighted.
    + apply (userHighlightsLoop_invariant env this isHighlighted).
      * intros h' b' _. apply userHighlightBody_isHighlighted.
      * apply userHighlightBody_isHighlighted.
  - apply IH. inversion Hex; subst; [congruence|assumption].
Qed.

Lemma phraseHighlightsLoop_isHighlighted highlights b :
  Exists (fun h => phraseIsMatch env h (originalMessage_ this) = true) highlights ->
  isHighlighted (phraseHighlightsLoop env this highlights b).
Proof.
  revert b.
  induction highlights as [|h rest IH]; intros b Hex; simpl; [inversion Hex|].
  destruct (phraseIsMatch env h (originalMessage_ this)) eqn:Hm; simpl.
  - destruct (highlightAlert_ _ && highlightSound_ _); simpl.
    + apply phraseHighlightBody_isHighlighted.
    + apply (phraseHighlightsLoop_invariant env this isHighlighted).
      * intros h' b' _. apply phraseHighlightBody_isHighlighted.
      * apply phraseHighlightBody_isHighlighted.
  - apply IH. inversion Hex; subst; [congruence|assumption].
Qed.

Lemma flagged_latchImpliesFlag s : flagged s -> latchImpliesFlag s.
Proof. intros [_ H] _. exact H. Qed.

Lemma badgeHighlightBody_latchImpliesFlag h s :
  latchImpliesFlag s -> latchImpliesFlag (badgeHighlightBody env h s).
Proof. intros H. apply flagged_latchImpliesFlag. now apply badgeHighlightBody_flagged. Qed.

Lemma badgeHighlightBody_keeps_flagged h s :
  flagged s -> flagged (badgeHighlightBody env h s).
Proof. intros H. apply badgeHighlightBody_flagged. now apply flagged_latchImpliesFlag. Qed.

Lemma badgesLoop_flagged h badges s :
  Exists (fun badge => badgeIsMatch env h badge = true) badges ->
  latchImpliesFlag s ->
  flagged (badgesLoop env h badges s).
Proof.
  revert s.
  induction badges as [|badge rest IH]; intros s Hex Hs; simpl; [inversion Hex|].
  destruct (badgeIsMatch env h badge) eqn:Hm; simpl.
  - pose proof (badgeHighlightBody_flagged h s Hs) as Hf.
    destruct (highlightAlert_ _ && highlightSound_ _); [exact Hf|].
    apply (badgesLoop_invariant env flagged); [|exact Hf].
    intros h' s'. apply badgeHighlightBody_keeps_flagged.
  - apply IH; [|exact Hs]. inversion Hex; subst; [congruence|assumption].
Qed.

Lemma badgeHighlightsLoop_flagged badgeHighlights badges s :
  Exists (fun h => Exists (fun badge => badgeIsMatch env h badge = true) badges)
    badgeHighlights ->
  latchImpliesFlag s ->
  flagged (badgeHighlightsLoop env badgeHighlights badges s).
Proof.
  revert s.
  induction badgeHighlights as [|h rest IH]; intros s Hex Hs; simpl;
    [inversion Hex|].
  inversion Hex as [? ? Hh|? ? Hrest]; subst.
  - apply (badgeHighlightsLoop_invariant env flagged).
    + intros h' s'. apply badgeHighlightBody_keeps_flagged.
    + now apply badgesLoop_flagged.
  - apply IH; [exact Hrest|].
    apply (badgesLoop_invariant env latchImpliesFlag); [|exact Hs].
    intros h' s'. apply badgeHighlightBody_latchImpliesFlag.
Qed.

(** *** Rules that do not match leave the builder alone *)

Lemma userHighlightsLoop_no_match userHighlights b :
  Forall (fun h => phraseIsMatch env h (nick this) = false) userHighlights ->
  userHighlightsLoop env this userHighlights b = Continue b.
Proof.
  induction 1 as [|h rest Hm _ IH]; simpl; [reflexivity|].
  now rewrite Hm.
Qed.

Lemma phraseHighlightsLoop_no_match highlights b :
  Forall (fun h => phraseIsMatch env h (originalMessage_ this) = false) highlights ->
  phraseHighlightsLoop env this highlights b = b.
Proof.
  induction 1 as [|h rest Hm _ IH]; simpl; [reflexivity|].
  now rewrite Hm.
Qed.

Lemma badgesLoop_no_match h badges s :
  Forall (fun badge => badgeIsMatch env h badge = false) badges ->
  badgesLoop env h badges s = s.
Proof.
  induction 1 as [|badge rest Hm _ IH]; simpl; [reflexivity|].
  now rewrite Hm.
Qed.

Lemma badgeHighlightsLoop_no_match badgeHighlights badges s :
  Forall (fun h => Forall (fun badge => badgeIsMatch env h badge = false) badges)
    badgeHighlights ->
  badgeHighlightsLoop env badgeHighlights badges s = s.
Proof.
  induction 1 as [|h rest Hm _ IH]; simpl; [reflexivity|].
  now rewrite badgesLoop_no_match.
Qed.

End HighlightedFlag.

(** *** The flag at the end of a pass *)

Section HighlightedPass.

Variable env : Env.
Variable this : Incoming.

Lemma badgeHighlightBody_keeps_highlighted h s :
  isHighlighted (fst s) -> isHighlighted (fst (badgeHighlightBody env h s)).
Proof.
  unfold isHighlighted. destruct s as [b latch]. simpl. intros H.
  unfold_blocks. destruct latch; simpl; split_tests; auto.
Qed.

Lemma userHighlightsLoop_keeps_highlighted userHighlights b :
  isHighlighted b ->
  isHighlighted (builderOf (userHighlightsLoop env this userHighlights b)).
Proof.
  apply (userHighlightsLoop_invariant env this isHighlighted).
  intros h b' _. apply userHighlightBody_isHighlighted.
Qed.

Lemma userHighlightsLoop_return_highlighted userHighlights b b' :
  userHighlightsLoop env this userHighlights b = Return b' -> isHighlighted b'.
Proof.
  revert b. induction userHighlights as [|h rest IH]; intros b; simpl;
    [discriminate|].
  destruct (phraseIsMatch env h (nick this)); simpl; [|apply IH].
  destruct (highlightAlert_ _ && highlightSound_ _) eqn:Hsat.
  - intros H. injection H as <-. apply userHighlightBody_isHighlighted.
  - intros H.
    pose proof (userHighlightsLoop_keeps_highlighted rest _
                  (userHighlightBody_isHighlighted env h b)) as Hk.
    rewrite H in Hk. exact Hk.
Qed.

Lemma badgeHighlight_keeps_highlighted b :
  isHighlighted b -> isHighlighted (badgeHighlight env this b).
Proof.
  intros Hb. unfold badgeHighlight.
  apply (badgeHighlightsLoop_invariant env (fun s => isHighlighted (fst s)));
    [|exact Hb].
  intros h s. apply badgeHighlightBody_keeps_highlighted.
Qed.

Lemma phraseHighlightsLoop_keeps_highlighted highlights b :
  isHighlighted b -> isHighlighted (phraseHighlightsLoop env this highlights b).
Proof.
  apply (phraseHighlightsLoop_invariant env this isHighlighted).
  intros h b' _. apply phraseHighlightBody_isHighlighted.
Qed.

Lemma whisperHighlight_keeps_highlighted b :
  isHighlighted b -> isHighlighted (whisperHighlight env this b).
Proof. unfold isHighlighted. now rewrite whisperHighlight_flags. Qed.

Lemma subscriptionHighlight_keeps_highlighted b :
  isHighlighted b -> isHighlighted (subscriptionHighlight env b).
Proof. unfold isHighlighted. unfold_blocks. split_tests; auto. Qed.

Lemma subscriptionHighlight_isHighlighted b :
  subHighlightActive env b = true -> isHighlighted (subscriptionHighlight env b).
Proof.
  intros Hs. unfold isHighlighted. unfold_blocks. rewrite Hs.
  split_tests; reflexivity.
Qed.

(** What comes after the whisper block keeps the flag. *)
Lemma rules_keep_highlighted b :
  isHighlighted b ->
  isHighlighted
    match userHighlightsLoop env this (highlightedUsers (getCSettings env)) b with
    | Return b' => b'
    | Continue b' =>
        if String.eqb (nick this) (getUserName (getCurrent env)) then b'
        else badgeHighlight env this
               (phraseHighlightsLoop env this (activeHighlights env) b')
    end.
Proof.
  intros Hb.
  pose proof (userHighlightsLoop_keeps_highlighted
                (highlightedUsers (getCSettings env)) b Hb) as Hu.
  destruct (userHighlightsLoop env this _ b) as [b'|b']; simpl in Hu; [|exact Hu].
  destruct (String.eqb _ _); [exact Hu|].
  now apply badgeHighlight_keeps_highlighted, phraseHighlightsLoop_keeps_highlighted.
Qed.

Lemma parseHighlights_keeps_highlighted b :
  isHighlighted b -> isHighlighted (parseHighlights env this b).
Proof.
  intros Hb. unfold parseHighlights.
  pose proof (subscriptionHighlight_keeps_highlighted b Hb) as H1.
  destruct (isBlacklistedUser _ _); [exact H1|].
  now apply rules_keep_highlighted, whisperHighlight_keeps_highlighted.
Qed.

Lemma parseHighlights_highlighted_by_subscription b :
  subHighlightActive env b = true -> isHighlighted (parseHighlights env this b).
Proof.
  intros Hs. unfold parseHighlights.
  pose proof (subscriptionHighlight_isHighlighted b Hs) as H1.
  destruct (isBlacklistedUser _ _); [exact H1|].
  now apply rules_keep_highlighted, whisperHighlight_keeps_highlighted.
Qed.

Lemma parseHighlights_highlighted_by_user b :
  isBlacklistedUser (getCSettings env) (nick this) = false ->
  Exists (fun h => phraseIsMatch env h (nick this) = true)
    (highlightedUsers (getCSettings env)) ->
  isHighlighted (parseHighlights env this b).
Proof.
  intros Hb Hex. unfold parseHighlights. rewrite Hb.
  pose proof (userHighlightsLoop_isHighlighted env this _
                (whisperHighlight env this (subscriptionHighlight env b)) Hex) as Hu.
  destruct (userHighlightsLoop env this _ _) as [b'|b']; simpl in Hu; [|exact Hu].
  destruct (String.eqb _ _); [exact Hu|].
  now apply badgeHighlight_keeps_highlighted, phraseHighlightsLoop_keeps_highlighted.
Qed.

Lemma parseHighlights_highlighted_by_phrase b :
  isBlacklistedUser (getCSettings env) (nick this) = false ->
  String.eqb (nick this) (getUserName (getCurrent env)) = false ->
  Exists (fun h => phraseIsMatch env h (originalMessage_ this) = true)
    (activeHighlights env) ->
  isHighlighted (parseHighlights env this b).
Proof.
  intros Hb Hn Hex. unfold parseHighlights. rewrite Hb.
  destruct (userHighlightsLoop env this _ _) as [b'|b'] eqn:Hu.
  - rewrite Hn. apply badgeHighlight_keeps_highlighted.
    now apply phraseHighlightsLoop_isHighlighted.
  - now apply (userHighlightsLoop_return_highlighted _ _ _ Hu).
Qed.

Lemma parseHighlights_highlighted_by_badge b :
  isBlacklistedUser (getCSettings env) (nick this) = false ->
  String.eqb (nick this) (getUserName (getCurrent env)) = false ->
  Exists (fun h => Exists (fun badge => badgeIsMatch env h badge = true)
                     (parseBadges (tags this)))
    (highlightedBadges (getCSettings env)) ->
  isHighlighted (parseHighlights env this b).
Proof.
  intros Hb Hn Hex. unfold parseHighlights. rewrite Hb.
  destruct (userHighlightsLoop env this _ _) as [b'|b'] eqn:Hu.
  - rewrite Hn. unfold badgeHighlight.
    apply (badgeHighlightsLoop_flagged env _ _ _ Hex).
    intros H. discriminate H.
  - now apply (userHighlightsLoop_return_highlighted _ _ _ Hu).
Qed.

(** The rules of the phrase category: the configured ones, and the
    self rule when it is built. *)
Lemma activeHighlights_match :
  Exists (fun h => phraseIsMatch env h (originalMessage_ this) = true)
    (highlightedMessages (getSettings env))
  \/ (isAnon (getCurrent env) = false
      /\ enableSelfHighlight (getSettings env) = true
      /\ getUserName (getCurrent env) <> ""
      /\ phraseIsMatch env (selfHighlight env) (originalMessage_ this) = true) ->
  Exists (fun h => phraseIsMatch env h (originalMessage_ this) = true)
    (activeHighlights env).
Proof.
  unfold activeHighlights.
  intros [Hex | (Ha & He & Hn & Hm)].
  - destruct (negb _ && _ && _); [|exact Hex].
    apply List.Exists_app. now left.
  - rewrite Ha, He. simpl.
    destruct (getUserName (getCurrent env)) eqn:Hname; [contradiction|]. simpl.
    apply List.Exists_app. right. now constructor.
Qed.

Lemma match_or_none {A : Type} (f : A -> bool) (l : list A) :
  Exists (fun x => f x = true) l \/ Forall (fun x => f x = false) l.
Proof.
  induction l as [|x l [IH | IH]].
  - right. constructor.
  - left. now right.
  - destruct (f x) eqn:Hx; [left; now left|right; now constructor].
Qed.

Lemma badge_match_or_none (badgeHighlights : list HighlightBadge.t)
  (badges : list Badge) :
  Exists (fun h => Exists (fun badge => badgeIsMatch env h badge = true) badges)
    badgeHighlights
  \/ Forall (fun h => Forall (fun badge => badgeIsMatch env h badge = false) badges)
       badgeHighlights.
Proof.
  induction badgeHighlights as [|h rest [IH | IH]].
  - right. constructor.
  - left. now right.
  - destruct (match_or_none (badgeIsMatch env h) badges) as [Hm | Hm];
      [left; now left|right; now constructor].
Qed.

(** A pass that ends with the flag set found it set, or went through
    the subscription category or a matching rule. *)
Lemma parseHighlights_highlighted_only_by b :
  isHighlighted (parseHighlights env this b) ->
  isHighlighted b
  \/ subHighlightActive env b = true
  \/ (isBlacklistedUser (getCSettings env) (nick this) = false
      /\ (Exists (fun h => phraseIsMatch env h (nick this) = true)
            (highlightedUsers (getCSettings env))
          \/ (String.eqb (nick this) (getUserName (getCurrent env)) = false
              /\ (Exists (fun h => phraseIsMatch env h (originalMessage_ this) = true)
                    (activeHighlights env)
                  \/ Exists (fun h => Exists (fun badge => badgeIsMatch env h badge = true)
                                        (parseBadges (tags this)))
                       (highlightedBadges (getCSettings env)))))).
Proof.
  destruct (subHighlightActive env b) eqn:Hs; [now auto|].
  unfold parseHighlights. rewrite (subscriptionHighlight_inactive env b Hs).
  destruct (isBlacklistedUser _ _); [now auto|].
  destruct (match_or_none (fun h => phraseIsMatch env h (nick this))
              (highlightedUsers (getCSettings env))) as [Hu | Hu];
    [intros _; right; right; split; [reflexivity|]; left; exact Hu|].
  rewrite (userHighlightsLoop_no_match env this _ _ Hu).
  destruct (String.eqb _ _) eqn:Hn.
  - unfold isHighlighted. rewrite whisperHighlight_flags. auto.
  - destruct (match_or_none (fun h => phraseIsMatch env h (originalMessage_ this))
                (activeHighlights env)) as [Hp | Hp];
      [intros _; right; right; split; [reflexivity|]; right;
       split; [reflexivity|]; left; exact Hp|].
    destruct (badge_match_or_none (highlightedBadges (getCSettings env))
                (parseBadges (tags this))) as [Hbadge | Hbadge];
      [intros _; right; right; split; [reflexivity|]; right;
       split; [reflexivity|]; right; exact Hbadge|].
    rewrite (phraseHighlightsLoop_no_match env this _ _ Hp).
    unfold badgeHighlight.
    rewrite (badgeHighlightsLoop_no_match env _ _ _ Hbadge). simpl.
    unfold isHighlighted. rewrite whisperHighlight_flags. auto.
Qed.

End HighlightedPass.

(** C10: the whisper block never touches the flags of the message. A
    received whisper, with whisper highlights enabled, that no other
    category matches ends the pass with the Whisper colour, the alert
    and the sound requested as the two whisper settings say, and the
    Highlighted flag as it was before the pass. The subscription
    category and every matching per-user, phrase or badge rule do set
    the Highlighted flag: in their blocks and loops, and at the end of
    the pass whenever the rule is reached, that is for a sender who
    is not blacklisted and, for phrase and badge rules, who is not the
    current user. The flag is set at the end of a pass in these cases
    only, unless it was set before. *)
Theorem whisper_alone_leaves_highlighted_flag
  (env : Env) (this : Incoming) (b : Builder) :
  flags (whisperHighlight env this b) = flags b
  /\ (subHighlightActive env b = false ->
      isBlacklistedUser (getCSettings env) (nick this) = false ->
      isReceivedWhisper this = true ->
      enableWhisperHighlight (getSettings env) = true ->
      Forall (fun h => phraseIsMatch env h (nick this) = false)
        (highlightedUsers (getCSettings env)) ->
      Forall (fun h => phraseIsMatch env h (originalMessage_ this) = false)
        (activeHighlights env) ->
      Forall (fun h => Forall (fun badge => badgeIsMatch env h badge = false)
                         (parseBadges (tags this)))
        (highlightedBadges (getCSettings env)) ->
      let r := parseHighlights env this b in
      flags r = flags b
      /\ highlightColor r = color env ColorType.Whisper
      /\ highlightAlert_ r
         = highlightAlert_ b || enableWhisperHighlightTaskbar (getSettings env)
      /\ highlightSound_ r
         = highlightSound_ b || enableWhisperHighlightSound (getSettings env))
  /\ (subHighlightActive env b = true -> isHighlighted (subscriptionHighlight env b))
  /\ (forall userHighlights,
        Exists (fun h => phraseIsMatch env h (nick this) = true) userHighlights ->
        isHighlighted (builderOf (userHighlightsLoop env this userHighlights b)))
  /\ (forall highlights,
        Exists (fun h => phraseIsMatch env h (originalMessage_ this) = true) highlights ->
        isHighlighted (phraseHighlightsLoop env this highlights b))
  /\ (forall badgeHighlights badges,
        Exists (fun h => Exists (fun badge => badgeIsMatch env h badge = true) badges)
          badgeHighlights ->
        isHighlighted (fst (badgeHighlightsLoop env badgeHighlights badges (b, false))))
  /\ (subHighlightActive env b = true -> isHighlighted (parseHighlights env this b))
  /\ (isBlacklistedUser (getCSettings env) (nick this) = false ->
      Exists (fun h => phraseIsMatch env h (nick this) = true)
        (highlightedUsers (getCSettings env)) ->
      isHighlighted (parseHighlights env this b))
  /\ (isBlacklistedUser (getCSettings env) (nick this) = false ->
      String.eqb (nick this) (getUserName (getCurrent env)) = false ->
      Exists (fun h => phraseIsMatch env h (originalMessage_ this) = true)
        (highlightedMessages (getSettings env))
      \/ (isAnon (getCurrent env) = false
          /\ enableSelfHighlight (getSettings env) = true
          /\ getUserName (getCurrent env) <> ""
          /\ phraseIsMatch env (selfHighlight env) (originalMessage_ this) = true) ->
      isHighlighted (parseHighlights env this b))
  /\ (isBlacklistedUser (getCSettings env) (nick this) = false ->
      String.eqb (nick this) (getUserName (getCurrent env)) = false ->
      Exists (fun h => Exists (fun badge => badgeIsMatch env h badge = true)
                         (parseBadges (tags this)))
        (highlightedBadges (getCSettings env)) ->
      isHighlighted (parseHighlights env this b))
  /\ (isHighlighted (parseHighlights env this b) <->
      isHighlighted b
      \/ subHighlightActive env b = true
      \/ (isBlacklistedUser (getCSettings env) (nick this) = false
          /\ (Exists (fun h => phraseIsMatch env h (nick this) = true)
                (highlightedUsers (getCSettings env))
              \/ (String.eqb (nick this) (getUserName (getCurrent env)) = false
                  /\ (Exists (fun h => phraseIsMatch env h (originalMessage_ this) = true)
                        (activeHighlights env)
                      \/ Exists (fun h => Exists (fun badge =>
                                                    badgeIsMatch env h badge = true)
                                            (parseBadges (tags this)))
                           (highlightedBadges (getCSettings env))))))).
Proof.
  split; [apply whisperHighlight_flags|].
  split; [|split; [|split; [|split; [|split; [|split; [|split; [|split; [|split]]]]]]]].
  - intros Hs Hb Hw He Hu Hp Hbadge r.
    assert (Hr : r = whisperHighlight env this b).
    { subst r. unfold parseHighlights.
      rewrite Hb, (subscriptionHighlight_inactive env b Hs).
      rewrite (userHighlightsLoop_no_match env this _ _ Hu).
      destruct (String.eqb _ _); [reflexivity|].
      rewrite (phraseHighlightsLoop_no_match env this _ _ Hp).
      unfold badgeHighlight.
      now rewrite (badgeHighlightsLoop_no_match env _ _ _ Hbadge). }
    rewrite Hr. unfold whisperHighlight. rewrite Hw, He. unfold_setters. simpl.
    destruct (enableWhisperHighlightTaskbar _), (enableWhisperHighlightSound _);
      simpl; rewrite ?orb_true_r, ?orb_false_r; split_tests; auto.
  - apply subscriptionHighlight_isHighlighted.
  - intros userHighlights. apply userHighlightsLoop_isHighlighted.
  - intros highlights. apply phraseHighlightsLoop_isHighlighted.
  - intros badgeHighlights badges Hex.
    apply (badgeHighlightsLoop_flagged env badgeHighlights badges (b, false) Hex).
    intros H. discriminate H.
  - apply parseHighlights_highlighted_by_subscription.
  - apply parseHighlights_highlighted_by_user.
  - intros Hb Hn Hm. apply parseHighlights_highlighted_by_phrase; [exact Hb|exact Hn|].
    now apply activeHighlights_match.
  - apply parseHighlights_highlighted_by_badge.
  - split; [apply parseHighlights_highlighted_only_by|].
    intros [Hb | [Hs | (Hb & [Hu | (Hn & [Hp | Hbadge])])]].
    + now apply parseHighlights_keeps_highlighted.
    + now apply parseHighlights_highlighted_by_subscription.
    + now apply parseHighlights_highlighted_by_user.
    + now apply parseHighlights_highlighted_by_phrase.
    + now apply parseHighlights_highlighted_by_badge.
Qed.

Lemma whisper_alone_leaves_highlighted_flag_witness :
  let env := Sample.env [Sample.bobRule] true in
  let this := Sample.whisper "alice" "hi" in
  let b := Sample.fresh Sample.noFlags in
  let plain := fun nick text badges =>
    {| nick := nick; originalMessage_ := text; isReceivedWhisper := false;
       tags := {[ "badges" := badges ]}; channelName := "forsen" |} in
  (flags (parseHighlights env this b) = flags b
   /\ highlightColor (parseHighlights env this b) = color env ColorType.Whisper
   /\ highlightAlert_ (parseHighlights env this b) = true
   /\ highlightSound_ (parseHighlights env this b) = true)
  /\ isHighlighted (subscriptionHighlight env (Sample.fresh Sample.subscriptionFlags))
  /\ isHighlighted (builderOf (userHighlightsLoop env this [Sample.aliceRule] b))
  /\ isHighlighted
       (fst (badgeHighlightsLoop env [Sample.moderatorBadge]
               [mkBadge "subscriber" "12"; mkBadge "moderator" "1"] (b, false)))
  /\ isHighlighted
       (parseHighlights env this (Sample.fresh Sample.subscriptionFlags))
  /\ isHighlighted (parseHighlights env (plain "bob" "hi" "subscriber/12") b)
  /\ isHighlighted (parseHighlights env (plain "alice" "hello" "subscriber/12") b)
  /\ isHighlighted (parseHighlights env (plain "alice" "me" "subscriber/12") b)
  /\ isHighlighted (parseHighlights env (plain "alice" "hi" "subscriber/12,moderator/1") b)
  /\ ~ isHighlighted (parseHighlights env this b).
Proof.
  intros env this b plain.
  destruct (whisper_alone_leaves_highlighted_flag env this b)
    as (_ & Hw & _ & Hu & _ & Hbadge & _ & _ & _ & _ & Honly).
  destruct (whisper_alone_leaves_highlighted_flag env this
              (Sample.fresh Sample.subscriptionFlags))
    as (_ & _ & Hs & _ & _ & _ & Hsub & _).
  destruct (whisper_alone_leaves_highlighted_flag env (plain "bob" "hi" "subscriber/12") b)
    as (_ & _ & _ & _ & _ & _ & _ & Hpu & _).
  destruct (whisper_alone_leaves_highlighted_flag env
              (plain "alice" "hello" "subscriber/12") b)
    as (_ & _ & _ & _ & _ & _ & _ & _ & Hpp & _).
  destruct (whisper_alone_leaves_highlighted_flag env
              (plain "alice" "me" "subscriber/12") b)
    as (_ & _ & _ & _ & _ & _ & _ & _ & Hself & _).
  destruct (whisper_alone_leaves_highlighted_flag env
              (plain "alice" "hi" "subscriber/12,moderator/1") b)
    as (_ & _ & _ & _ & _ & _ & _ & _ & _ & Hpb & _).
  repeat apply conj.
  - apply Hw; [reflexivity|reflexivity|reflexivity|reflexivity| | | ];
      repeat constructor.
  - apply Hw; [reflexivity|reflexivity|reflexivity|reflexivity| | | ];
      repeat constructor.
  - apply Hw; [reflexivity|reflexivity|reflexivity|reflexivity| | | ];
      repeat constructor.
  - apply Hw; [reflexivity|reflexivity|reflexivity|reflexivity| | | ];
      repeat constructor.
  - apply Hs. reflexivity.
  - apply Hu. left. reflexivity.
  - apply Hbadge. left. right. left. reflexivity.
  - apply Hsub. reflexivity.
  - apply Hpu; [reflexivity|]. left. reflexivity.
  - apply Hpp; [reflexivity|reflexivity|]. left. left. reflexivity.
  - apply Hself; [reflexivity|reflexivity|]. right.
    repeat split; try reflexivity. discriminate.
  - apply Hpb; [reflexivity|reflexivity|]. left. right. left. reflexivity.
  - intros H. apply Honly in H.
    destruct H as [H | [H | (_ & [H | (_ & [H | H])])]].
    + discriminate H.
    + discriminate H.
    + inversion H as [? ? Hm|? ? Hm]; [discriminate Hm|inversion Hm].
    + inversion H as [? ? Hm|? ? Hm]; [discriminate Hm|].
      inversion Hm as [? ? Hm'|? ? Hm']; [discriminate Hm'|inversion Hm'].
    + inversion H as [? ? Hm|? ? Hm]; [|inversion Hm].
      inversion Hm as [? ? Hm'|? ? Hm']; [discriminate Hm'|inversion Hm'].
Defined.

(** ** More on the badge parser *)

Lemma count_app (c : ascii) (s1 s2 : QString) :
  QString.count c (s1 ++ s2) = QString.count c s1 + QString.count c s2.
Proof.
  induction s1 as [|d s1 IH]; simpl; [reflexivity|].
  rewrite IH. lia.
Qed.

Lemma splitKeep_join (sep : ascii) (parts : list QString) :
  parts <> [] ->
  Forall (fun part => QString.count sep part = 0) parts ->
  QString.splitKeep sep (QString.join sep parts) = parts.
Proof.
  induction parts as [|part rest IH]; intros Hne Hfree; [contradiction|].
  inversion Hfree as [|? ? Hpart Hrest]; subst.
  destruct rest as [|part' rest].
  - simpl. now apply splitKeep_free.
  - change (QString.join sep (part :: part' :: rest))
      with (part ++ String sep (QString.join sep (part' :: rest))).
    rewrite splitKeep_app, (splitKeep_free _ _ Hpart), IH; [reflexivity| |assumption].
    discriminate.
Qed.

Lemma badgeToken_comma_free (badge : Badge) :
  separatorFree (name badge) -> separatorFree (version badge) ->
  QString.count "," (badgeToken badge) = 0.
Proof.
  intros [Hn _] [Hv _]. unfold badgeToken.
  rewrite count_app. simpl. lia.
Qed.

Lemma spec_badge_of_badgeToken (badge : Badge) :
  separatorFree (name badge) -> separatorFree (version badge) ->
  spec_badge_of_token (badgeToken badge) = Some badge.
Proof.
  intros [_ Hn] [_ Hv]. destruct badge as [n v]. simpl in *.
  apply spec_badge_of_token_iff. auto.
Qed.

Lemma badgeToken_not_empty (badge : Badge) :
  String.eqb (badgeToken badge) "" = false.
Proof. unfold badgeToken. destruct (name badge); reflexivity. Qed.

Lemma parse_badge_tokens (badges : list Badge) :
  Forall (fun badge => separatorFree (name badge) /\ separatorFree (version badge))
    badges ->
  omap spec_badge_of_token
    (List.filter (fun token => negb (String.eqb token ""))
       (List.map badgeToken badges))
  = badges.
Proof.
  induction 1 as [|badge rest [Hn Hv] _ IH]; [reflexivity|].
  cbn [List.map List.filter]. rewrite badgeToken_not_empty.
  cbn [negb].
  change (omap spec_badge_of_token (badgeToken badge :: ?l))
    with (match spec_badge_of_token (badgeToken badge) with
          | Some b => b :: omap spec_badge_of_token l
          | None => omap spec_badge_of_token l
          end).
  now rewrite (spec_badge_of_badgeToken badge Hn Hv), IH.
Qed.

Lemma parseBadges_of_badgesValue (tags : QVariantMap) (badges : list Badge) :
  Forall (fun badge => separatorFree (name badge) /\ separatorFree (version badge))
    badges ->
  parseBadges (<["badges" := badgesValue badges]> tags) = badges.
Proof.
  intros Hfree.
  rewrite parseBadges_eq_spec. unfold spec_parseBadges.
  rewrite lookup_insert_eq. unfold badgesValue.
  destruct badges as [|badge rest]; [reflexivity|].
  rewrite splitKeep_join.
  - now apply parse_badge_tokens.
  - discriminate.
  - apply List.Forall_map. revert Hfree. apply List.Forall_impl.
    intros b [Hn Hv]. now apply badgeToken_comma_free.
Qed.

(** Writing badges as a tag value and parsing it gives the badges
    back, when no name or version holds a comma or a slash. *)
Theorem parseBadges_badgesValue (tags : QVariantMap) (badges : list Badge) :
  Forall (fun badge => separatorFree (name badge) /\ separatorFree (version badge))
    badges ->
  parseBadges (<["badges" := badgesValue badges]> tags) = badges.
Proof. exact (parseBadges_of_badgesValue tags badges). Qed.

Lemma parseBadges_badgesValue_witness :
  parseBadges
    (<["badges" := badgesValue [mkBadge "subscriber" "12"; mkBadge "bits" "100"]]>
       {[ "color" := "#FF0000" ]})
  = [mkBadge "subscriber" "12"; mkBadge "bits" "100"].
Proof.
  apply (parseBadges_badgesValue {[ "color" := "#FF0000" ]}
           [mkBadge "subscriber" "12"; mkBadge "bits" "100"]).
  repeat constructor.
Defined.

Lemma spec_badge_separatorFree (token : QString) (badge : Badge) :
  QString.count "," token = 0 ->
  spec_badge_of_token token = Some badge ->
  separatorFree (name badge) /\ separatorFree (version badge).
Proof.
  intros Hc Hb. destruct badge as [n v].
  apply spec_badge_of_token_iff in Hb as (-> & Hn & Hv).
  rewrite count_app in Hc. simpl in *.
  apply Nat.eq_add_0 in Hc as [Hcn Hcv]. unfold separatorFree. auto.
Qed.

Lemma omap_badges_separatorFree (tokens : list QString) :
  Forall (fun token => QString.count "," token = 0) tokens ->
  Forall (fun badge => separatorFree (name badge) /\ separatorFree (version badge))
    (omap spec_badge_of_token tokens).
Proof.
  induction 1 as [|token rest Hc _ IH]; simpl; [constructor|].
  destruct (spec_badge_of_token token) as [badge|] eqn:Hb; [|exact IH].
  constructor; [|exact IH]. now apply (spec_badge_separatorFree token).
Qed.

Lemma omap_length_le {A B : Type} (f : A -> option B) (l : list A) :
  length (omap f l) <= length l.
Proof.
  induction l as [|x l IH]; [reflexivity|].
  change (omap f (x :: l))
    with (match f x with Some y => y :: omap f l | None => omap f l end).
  destruct (f x); simpl; lia.
Qed.

(** No parsed badge holds a comma or a slash in its name or version;
    there are no more badges than commas in the value plus one; and
    writing the parsed badges back and parsing again changes nothing. *)
Theorem parseBadges_separator_free (tags : QVariantMap) :
  Forall (fun badge => separatorFree (name badge) /\ separatorFree (version badge))
    (parseBadges tags)
  /\ length (parseBadges tags)
     <= match tags !! "badges" with
        | Some value => S (QString.count "," value)
        | None => 0
        end
  /\ parseBadges (<["badges" := badgesValue (parseBadges tags)]> tags)
     = parseBadges tags.
Proof.
  assert (Hfree : Forall (fun badge => separatorFree (name badge)
                                       /\ separatorFree (version badge))
                    (parseBadges tags)).
  { rewrite parseBadges_eq_spec. unfold spec_parseBadges.
    destruct (tags !! "badges") as [value|]; [|constructor].
    apply omap_badges_separatorFree.
    apply List.incl_Forall with (l1 := QString.splitKeep "," value).
    - apply List.incl_filter.
    - apply splitKeep_parts_free. }
  split; [exact Hfree|]. split.
  - rewrite parseBadges_eq_spec. unfold spec_parseBadges.
    destruct (tags !! "badges") as [value|]; simpl; [|lia].
    etransitivity; [apply omap_length_le|].
    etransitivity; [apply List.filter_length_le|].
    now rewrite splitKeep_length.
  - now apply parseBadges_of_badgesValue.
Qed.

(** ** What a pass never takes back *)

Lemma grows_refl b : grows b b.
Proof. unfold grows. auto. Qed.

Lemma grows_trans b1 b2 b3 : grows b1 b2 -> grows b2 b3 -> grows b1 b3.
Proof.
  unfold grows. intros (Hf & Hs & Hc & Ha & Hd) (Hf' & Hs' & Hc' & Ha' & Hd').
  repeat split; [auto|congruence|congruence|auto|auto].
Qed.

Lemma grows_setFlag_Highlighted b : grows b (setFlag MessageFlag.Highlighted b).
Proof.
  unfold grows, setFlag. simpl. repeat split; auto.
  intros []; simpl; auto.
Qed.

Lemma grows_setFlag_ShowInMentions b : grows b (setFlag MessageFlag.ShowInMentions b).
Proof.
  unfold grows, setFlag. simpl. repeat split; auto.
  intros []; simpl; auto.
Qed.

Lemma grows_setHighlightColor c b : grows b (setHighlightColor c b).
Proof. unfold grows, setHighlightColor. simpl. auto. Qed.

Lemma grows_setHighlightAlert b : grows b (setHighlightAlert b).
Proof. unfold grows, setHighlightAlert. simpl. auto. Qed.

Lemma grows_setHighlightSound b : grows b (setHighlightSound b).
Proof. unfold grows, setHighlightSound. simpl. auto. Qed.

Lemma grows_setHighlightSoundUrl url b : grows b (setHighlightSoundUrl url b).
Proof. unfold grows, setHighlightSoundUrl. simpl. auto. Qed.

(** A chain of assignments grows the builder. *)
Ltac grows_chain :=
  repeat first
    [ apply grows_refl
    | eapply grows_trans;
      [ | first [ apply grows_setFlag_Highlighted
                | apply grows_setFlag_ShowInMentions
                | apply grows_setHighlightColor
                | apply grows_setHighlightAlert
                | apply grows_setHighlightSound
                | apply grows_setHighlightSoundUrl ] ] ].

Section Growth.

Variable env : Env.
Variable this : Incoming.

Lemma subscriptionHighlight_grows b : grows b (subscriptionHighlight env b).
Proof. unfold subscriptionHighlight. split_tests; grows_chain. Qed.

Lemma whisperHighlight_grows b : grows b (whisperHighlight env this b).
Proof. unfold whisperHighlight. split_tests; grows_chain. Qed.

Lemma userHighlightBody_grows h b : grows b (userHighlightBody env h b).
Proof. unfold userHighlightBody. split_tests; grows_chain. Qed.

Lemma phraseHighlightBody_grows h b : grows b (phraseHighlightBody env h b).
Proof. unfold phraseHighlightBody. split_tests; grows_chain. Qed.

Lemma badgeHighlightBody_grows h s :
  grows (fst s) (fst (badgeHighlightBody env h s)).
Proof.
  destruct s as [b latch]. unfold badgeHighlightBody.
  destruct latch; simpl; split_tests; grows_chain.
Qed.

Lemma parseHighlights_grows b : grows b (parseHighlights env this b).
Proof.
  unfold parseHighlights.
  assert (H1 : grows b (subscriptionHighlight env b))
    by apply subscriptionHighlight_grows.
  destruct (isBlacklistedUser _ _); [exact H1|].
  assert (H2 : grows b (whisperHighlight env this (subscriptionHighlight env b))).
  { eapply grows_trans; [exact H1|apply whisperHighlight_grows]. }
  pose proof (userHighlightsLoop_invariant env this (grows b)
                (fun h b' Hb' => grows_trans _ _ _ Hb' (userHighlightBody_grows h b'))
                (highlightedUsers (getCSettings env)) _ H2) as H3.
  destruct (userHighlightsLoop env this _ _) as [b3|b3]; simpl in H3; [|exact H3].
  destruct (String.eqb _ _); [exact H3|].
  pose proof (phraseHighlightsLoop_invariant env this (grows b)
                (fun h b' Hb' => grows_trans _ _ _ Hb' (phraseHighlightBody_grows h b'))
                (activeHighlights env) _ H3) as H4.
  unfold badgeHighlight.
  apply (badgeHighlightsLoop_invariant env (fun s => grows b (fst s))); [|exact H4].
  intros h s Hs. eapply grows_trans; [exact Hs|apply badgeHighlightBody_grows].
Qed.

End Growth.

(** Nothing a pass finds set is cleared by it: every flag set before
    is set after, the Subscription and Collapsed flags are as before,
    and an alert or sound requested before is still requested. *)
Theorem parseHighlights_never_clears (env : Env) (this : Incoming) (b : Builder) :
  (forall flag,
     Flags.has (flags b) flag = true ->
     Flags.has (flags (parseHighlights env this b)) flag = true)
  /\ Flags.has (flags (parseHighlights env this b)) MessageFlag.Subscription
     = Flags.has (flags b) MessageFlag.Subscription
  /\ Flags.has (flags (parseHighlights env this b)) MessageFlag.Collapsed
     = Flags.has (flags b) MessageFlag.Collapsed
  /\ (highlightAlert_ b = true -> highlightAlert_ (parseHighlights env this b) = true)
  /\ (highlightSound_ b = true -> highlightSound_ (parseHighlights env this b) = true).
Proof. exact (parseHighlights_grows env this b). Qed.

Lemma parseHighlights_never_clears_witness :
  let env := Sample.env [Sample.aliceRule] true in
  let this := Sample.whisper "alice" "hello" in
  let b := mkBuilder (mkMessageFlags false true true true) None true true (Url "") in
  Flags.has (flags (parseHighlights env this b)) MessageFlag.ShowInMentions = true
  /\ highlightAlert_ (parseHighlights env this b) = true.
Proof.
  intros env this b.
  destruct (parseHighlights_never_clears env this b) as (Hf & _ & _ & Ha & _).
  split; [apply Hf|apply Ha]; reflexivity.
Defined.

(** ** A pass in which nothing applies *)

(** A message that is no highlighted subscription and no highlighted
    whisper, and that no rule matches, leaves the pass as it entered
    it; so does every such message of a blacklisted sender, and of the
    current user when no per-user rule matches. *)
Theorem parseHighlights_nothing_applies (env : Env) (this : Incoming) (b : Builder) :
  subHighlightActive env b = false ->
  isBlacklistedUser (getCSettings env) (nick this) = true
  \/ (isReceivedWhisper this && enableWhisperHighlight (getSettings env) = false
      /\ Forall (fun h => phraseIsMatch env h (nick this) = false)
           (highlightedUsers (getCSettings env))
      /\ (nick this = getUserName (getCurrent env)
          \/ (Forall (fun h => phraseIsMatch env h (originalMessage_ this) = false)
                (activeHighlights env)
              /\ Forall (fun h => Forall (fun badge => badgeIsMatch env h badge = false)
                                    (parseBadges (tags this)))
                   (highlightedBadges (getCSettings env))))) ->
  parseHighlights env this b = b.
Proof.
  intros Hs H. unfold parseHighlights.
  rewrite (subscriptionHighlight_inactive env b Hs).
  destruct H as [Hb | (Hw & Hu & H)]; [now rewrite Hb|].
  destruct (isBlacklistedUser _ _); [reflexivity|].
  unfold whisperHighlight. rewrite Hw.
  rewrite (userHighlightsLoop_no_match env this _ _ Hu).
  destruct H as [Hn | [Hp Hbadge]].
  - now rewrite Hn, String.eqb_refl.
  - destruct (String.eqb _ _); [reflexivity|].
    rewrite (phraseHighlightsLoop_no_match env this _ _ Hp).
    unfold badgeHighlight.
    now rewrite (badgeHighlightsLoop_no_match env _ _ _ Hbadge).
Qed.

Lemma parseHighlights_nothing_applies_witness :
  let env := Sample.env [Sample.aliceRule] true in
  let this := {| nick := "carol"; originalMessage_ := "good morning";
                 isReceivedWhisper := false;
                 tags := {[ "badges" := "subscriber/12" ]}; channelName := "forsen" |} in
  parseHighlights env this (Sample.fresh Sample.noFlags) = Sample.fresh Sample.noFlags.
Proof.
  intros env this.
  apply (parseHighlights_nothing_applies env this (Sample.fresh Sample.noFlags));
    [reflexivity|].
  right. split; [reflexivity|]. split; [repeat constructor|].
  right. split; repeat constructor.
Defined.

(** ** The badge category *)

Section BadgeCategory.

Variable env : Env.
Variable this : Incoming.

Lemma badgeHighlightsLoop_app pre post badges s :
  badgeHighlightsLoop env (pre ++ post) badges s
  = badgeHighlightsLoop env post badges (badgeHighlightsLoop env pre badges s).
Proof.
  revert s. induction pre as [|h pre IH]; intros s; simpl; [reflexivity|apply IH].
Qed.

Lemma badgeHighlightBody_latchedColor c h s :
  latchedColor c s -> latchedColor c (badgeHighlightBody env h s).
Proof.
  unfold latchedColor. destruct s as [b latch]. simpl. intros [-> Hc].
  unfold_blocks. simpl. split_tests; auto.
Qed.

Lemma badgeHighlightBody_first_color h s :
  subHighlightActive env (fst s) = false ->
  snd s = false ->
  latchedColor (HighlightBadge.getColor h) (badgeHighlightBody env h s).
Proof.
  unfold latchedColor. destruct s as [b latch]. simpl. intros Hs ->.
  unfold_blocks. destruct b as [[] ? ? ? ?]; simpl in *.
  all: rewrite Hs; simpl; split_tests; auto.
Qed.

Lemma badgesLoop_first_color h badges s :
  subHighlightActive env (fst s) = false ->
  snd s = false ->
  Exists (fun badge => badgeIsMatch env h badge = true) badges ->
  latchedColor (HighlightBadge.getColor h) (badgesLoop env h badges s).
Proof.
  intros Hs Hl Hex.
  induction badges as [|badge rest IH]; simpl; [inversion Hex|].
  destruct (badgeIsMatch env h badge) eqn:Hm; simpl.
  - pose proof (badgeHighlightBody_first_color h s Hs Hl) as Hc.
    destruct (highlightAlert_ _ && highlightSound_ _); [exact Hc|].
    apply (badgesLoop_invariant env (latchedColor (HighlightBadge.getColor h)));
      [|exact Hc].
    intros h' s'. apply badgeHighlightBody_latchedColor.
  - apply IH. inversion Hex; subst; [congruence|assumption].
Qed.

Lemma badgeHighlightBody_flagsKept b h s :
  flagsKept b s -> flagsKept b (badgeHighlightBody env h s).
Proof.
  unfold flagsKept, sameFlagsButHighlighted. destruct s as [b' latch]. simpl.
  intros (Hs & Hm & Hc). unfold_blocks.
  destruct latch; simpl; split_tests; auto.
Qed.

End BadgeCategory.

(** In the badge category the colour comes from the first badge rule,
    in the order of the rules, that matches a badge of the message;
    later matches, of this rule or of others, leave it. This holds
    when the subscription guard is down. *)
Theorem badge_color_of_first_matching_rule
  (env : Env) (this : Incoming) (b : Builder) (pre post : list HighlightBadge.t)
  (h : HighlightBadge.t) :
  subHighlightActive env b = false ->
  highlightedBadges (getCSettings env) = (pre ++ h :: post)%list ->
  Forall (fun h' => Forall (fun badge => badgeIsMatch env h' badge = false)
                      (parseBadges (tags this))) pre ->
  Exists (fun badge => badgeIsMatch env h badge = true) (parseBadges (tags this)) ->
  highlightColor (badgeHighlight env this b) = HighlightBadge.getColor h.
Proof.
  intros Hs Hrules Hpre Hex. unfold badgeHighlight.
  rewrite Hrules, badgeHighlightsLoop_app.
  rewrite (badgeHighlightsLoop_no_match env _ _ _ Hpre). simpl.
  apply (badgeHighlightsLoop_invariant env (latchedColor (HighlightBadge.getColor h))).
  - intros h' s'. apply badgeHighlightBody_latchedColor.
  - now apply badgesLoop_first_color.
Qed.

Lemma badge_color_of_first_matching_rule_witness :
  let subscriberBadge := HighlightBadge.new "subscriber" true false "" (Some (mkQColor 14)) in
  let env :=
    {| getSettings := Sample.settings;
       getCSettings :=
         {| highlightedUsers := [];
            highlightedBadges := [Sample.moderatorBadge; subscriberBadge; Sample.moderatorBadge];
            isBlacklistedUser := fun _ => false;
            isMutedChannel := fun _ => false |};
       color := Sample.palette;
       getCurrent := {| getUserName := "me"; isAnon := false |};
       QFileInfo_exists := fun _ => false;
       QFileInfo_isFile := fun _ => false;
       phraseIsMatch := fun h text => String.eqb (HighlightPhrase.pattern h) text;
       badgeIsMatch := fun h badge => String.eqb (HighlightBadge.badgeName h) (name badge);
       QUrl_parsed := Sample.parsed;
       isInStreamerMode := false;
       focusWidgetIsSet := false;
       isGuiThread := true |} in
  highlightColor
    (badgeHighlight env (Sample.whisper "alice" "hi") (Sample.fresh Sample.noFlags))
  = Some (mkQColor 14).
Proof.
  intros subscriberBadge env.
  apply (badge_color_of_first_matching_rule env (Sample.whisper "alice" "hi")
           (Sample.fresh Sample.noFlags) [Sample.moderatorBadge] [Sample.moderatorBadge]
           subscriberBadge).
  - reflexivity.
  - reflexivity.
  - repeat constructor.
  - left. reflexivity.
Defined.

(** ** The ShowInMentions flag *)

Section Mentions.

Variable env : Env.
Variable this : Incoming.

(** A property kept by the body for the rules of the list that match
    is kept by the loop. *)
Lemma userHighlightsLoop_invariant_in (P : Builder -> Prop) userHighlights :
  (forall h b, In h userHighlights -> phraseIsMatch env h (nick this) = true ->
               P b -> P (userHighlightBody env h b)) ->
  forall b, P b -> P (builderOf (userHighlightsLoop env this userHighlights b)).
Proof.
  induction userHighlights as [|h rest IH]; intros Hbody b Hb; simpl; [exact Hb|].
  assert (Hrest : forall h' b', In h' rest -> phraseIsMatch env h' (nick this) = true ->
                                P b' -> P (userHighlightBody env h' b'))
    by (intros h' b' Hin; apply Hbody; now right).
  destruct (phraseIsMatch env h (nick this)) eqn:Hm; simpl; [|now apply IH].
  assert (Hh : P (userHighlightBody env h b))
    by (apply Hbody; [now left|exact Hm|exact Hb]).
  destruct (highlightAlert_ _ && highlightSound_ _); simpl; [exact Hh|now apply IH].
Qed.

Lemma phraseHighlightsLoop_invariant_in (P : Builder -> Prop) highlights :
  (forall h b, In h highlights -> phraseIsMatch env h (originalMessage_ this) = true ->
               P b -> P (phraseHighlightBody env h b)) ->
  forall b, P b -> P (phraseHighlightsLoop env this highlights b).
Proof.
  induction highlights as [|h rest IH]; intros Hbody b Hb; simpl; [exact Hb|].
  assert (Hrest : forall h' b', In h' rest ->
                                phraseIsMatch env h' (originalMessage_ this) = true ->
                                P b' -> P (phraseHighlightBody env h' b'))
    by (intros h' b' Hin; apply Hbody; now right).
  destruct (phraseIsMatch env h (originalMessage_ this)) eqn:Hm; simpl;
    [|now apply IH].
  assert (Hh : P (phraseHighlightBody env h b))
    by (apply Hbody; [now left|exact Hm|exact Hb]).
  destruct (highlightAlert_ _ && highlightSound_ _); simpl; [exact Hh|now apply IH].
Qed.

Lemma subscriptionHighlight_sameFlags b :
  sameFlagsButHighlighted b (subscriptionHighlight env b).
Proof.
  unfold sameFlagsButHighlighted. unfold_blocks. split_tests; auto.
Qed.

Lemma badgeHighlight_sameFlags b :
  sameFlagsButHighlighted b (badgeHighlight env this b).
Proof.
  unfold badgeHighlight.
  apply (badgeHighlightsLoop_invariant env (flagsKept b)).
  - intros h s. apply badgeHighlightBody_flagsKept.
  - unfold flagsKept, sameFlagsButHighlighted. simpl. auto.
Qed.

Lemma userHighlightBody_mentions h b :
  HighlightPhrase.showInMentions h = false ->
  bitShowInMentions (flags (userHighlightBody env h b)) = bitShowInMentions (flags b).
Proof. intros Hm. unfold_blocks. rewrite Hm. split_tests; reflexivity. Qed.

Lemma phraseHighlightBody_mentions h b :
  HighlightPhrase.showInMentions h = false ->
  bitShowInMentions (flags (phraseHighlightBody env h b)) = bitShowInMentions (flags b).
Proof. intros Hm. unfold_blocks. rewrite Hm. split_tests; reflexivity. Qed.

End Mentions.

(** The subscription, whisper and badge categories set no flag but
    Highlighted; and when no per-user rule that matches the sender and
    no phrase rule that matches the text asks for it, the
    ShowInMentions flag leaves the pass as it entered it. *)
Theorem showInMentions_only_from_rules (env : Env) (this : Incoming) (b : Builder) :
  (sameFlagsButHighlighted b (subscriptionHighlight env b)
   /\ flags (whisperHighlight env this b) = flags b
   /\ sameFlagsButHighlighted b (badgeHighlight env this b))
  /\ (Forall (fun h => phraseIsMatch env h (nick this) = true ->
                       HighlightPhrase.showInMentions h = false)
        (highlightedUsers (getCSettings env)) ->
      Forall (fun h => phraseIsMatch env h (originalMessage_ this) = true ->
                       HighlightPhrase.showInMentions h = false)
        (activeHighlights env) ->
      Flags.has (flags (parseHighlights env this b)) MessageFlag.ShowInMentions
      = Flags.has (flags b) MessageFlag.ShowInMentions).
Proof.
  split.
  - split; [apply subscriptionHighlight_sameFlags|].
    split; [apply whisperHighlight_flags|apply badgeHighlight_sameFlags].
  - intros Hu Hp. simpl.
    set (P := fun b' : Builder => bitShowInMentions (flags b') = bitShowInMentions (flags b)).
    change (P (parseHighlights env this b)).
    unfold parseHighlights.
    assert (H1 : P (subscriptionHighlight env b))
      by apply (subscriptionHighlight_sameFlags env b).
    destruct (isBlacklistedUser _ _); [exact H1|].
    assert (H2 : P (whisperHighlight env this (subscriptionHighlight env b)))
      by (unfold P; now rewrite whisperHighlight_flags).
    assert (H3 : P (builderOf (userHighlightsLoop env this
                                 (highlightedUsers (getCSettings env))
                                 (whisperHighlight env this (subscriptionHighlight env b))))).
    { apply (userHighlightsLoop_invariant_in env this P); [|exact H2].
      intros h b' Hin Hm Hb'. unfold P. rewrite userHighlightBody_mentions; [exact Hb'|].
      rewrite List.Forall_forall in Hu. now apply Hu. }
    destruct (userHighlightsLoop env this _ _) as [b3|b3]; simpl in H3; [|exact H3].
    destruct (String.eqb _ _); [exact H3|].
    assert (H4 : P (phraseHighlightsLoop env this (activeHighlights env) b3)).
    { apply (phraseHighlightsLoop_invariant_in env this P); [|exact H3].
      intros h b' Hin Hm Hb'. unfold P. rewrite phraseHighlightBody_mentions; [exact Hb'|].
      rewrite List.Forall_forall in Hp. now apply Hp. }
    destruct (badgeHighlight_sameFlags env this
                (phraseHighlightsLoop env this (activeHighlights env) b3))
      as (_ & Hm & _).
    unfold P in *. congruence.
Qed.

Lemma showInMentions_only_from_rules_witness :
  let env := Sample.env [Sample.aliceRule] true in
  let this := Sample.whisper "alice" "hello" in
  Flags.has (flags (parseHighlights env this (Sample.fresh Sample.noFlags)))
    MessageFlag.ShowInMentions
  = false.
Proof.
  intros env this.
  destruct (showInMentions_only_from_rules env this (Sample.fresh Sample.noFlags))
    as [_ H].
  apply H; repeat constructor.
Defined.

(** ** The break of the phrase loop *)

(** When the first phrase rule that matches the text leaves both the
    alert and the sound requested, the phrase loop ends there: the
    rules after it are not applied. The badge category still runs, on
    the builder that rule left. *)
Theorem satisfied_phrase_rule_breaks
  (env : Env) (this : Incoming) (b b2 : Builder) (pre post : list HighlightPhrase.t)
  (h : HighlightPhrase.t) :
  isBlacklistedUser (getCSettings env) (nick this) = false ->
  userHighlightsLoop env this (highlightedUsers (getCSettings env))
    (whisperHighlight env this (subscriptionHighlight env b)) = Continue b2 ->
  String.eqb (nick this) (getUserName (getCurrent env)) = false ->
  activeHighlights env = (pre ++ h :: post)%list ->
  Forall (fun h' => phraseIsMatch env h' (originalMessage_ this) = false) pre ->
  phraseIsMatch env h (originalMessage_ this) = true ->
  highlightAlert_ (phraseHighlightBody env h b2)
  && highlightSound_ (phraseHighlightBody env h b2) = true ->
  phraseHighlightsLoop env this (pre ++ h :: post) b2 = phraseHighlightBody env h b2
  /\ parseHighlights env this b
     = badgeHighlight env this (phraseHighlightBody env h b2).
Proof.
  intros Hb Hu Hn Ha Hpre Hm Hsat.
  assert (H : phraseHighlightsLoop env this (pre ++ h :: post) b2
              = phraseHighlightBody env h b2).
  { clear Ha. induction Hpre as [|h' pre' Hm' _ IH]; simpl.
    - now rewrite Hm, Hsat.
    - now rewrite Hm'. }
  split; [exact H|].
  unfold parseHighlights. now rewrite Hb, Hu, Hn, Ha, H.
Qed.

Lemma satisfied_phrase_rule_breaks_witness :
  let loud := HighlightPhrase.new "hello" true true true false false "loud.wav"
                (Some (mkQColor 20)) in
  let env :=
    {| getSettings :=
         {| pathHighlightSound := ""; customHighlightSound := false;
            enableSubHighlight := false; enableSubHighlightTaskbar := false;
            enableSubHighlightSound := false; subHighlightSoundUrl := "";
            enableWhisperHighlight := false; enableWhisperHighlightTaskbar := false;
            enableWhisperHighlightSound := false; whisperHighlightSoundUrl := "";
            highlightedMessages := [Sample.bobRule; loud; Sample.helloPhrase];
            enableSelfHighlight := false; showSelfHighlightInMentions := false;
            enableSelfHighlightTaskbar := false; enableSelfHighlightSound := false;
            selfHighlightSoundUrl := ""; streamerModeMuteMentions := false;
            highlightAlwaysPlaySound := false |};
       getCSettings := Sample.csettings [];
       color := Sample.palette;
       getCurrent := {| getUserName := "me"; isAnon := false |};
       QFileInfo_exists := fun _ => false;
       QFileInfo_isFile := fun _ => false;
       phraseIsMatch := fun h text => String.eqb (HighlightPhrase.pattern h) text;
       badgeIsMatch := fun h badge => String.eqb (HighlightBadge.badgeName h) (name badge);
       QUrl_parsed := Sample.parsed;
       isInStreamerMode := false;
       focusWidgetIsSet := false;
       isGuiThread := true |} in
  let this := Sample.whisper "alice" "hello" in
  highlightColor (parseHighlights env this (Sample.fresh Sample.noFlags))
  = Some (mkQColor 20).
Proof.
  intros loud env this.
  assert (Hpre : Forall (fun h' => phraseIsMatch env h' (originalMessage_ this) = false)
                   [Sample.bobRule]) by repeat constructor.
  destruct (satisfied_phrase_rule_breaks env this (Sample.fresh Sample.noFlags)
              (Sample.fresh Sample.noFlags) [Sample.bobRule] [Sample.helloPhrase] loud
              eq_refl eq_refl eq_refl eq_refl Hpre eq_refl eq_refl) as [_ H].
  rewrite H. reflexivity.
Defined.

(** ** The whisper sound *)

Section WhisperSound.

Variable env : Env.
Variable this : Incoming.

Lemma userHighlightBody_soundKept b0 h b :
  HighlightPhrase.hasSound h = false ->
  soundKept b0 b -> soundKept b0 (userHighlightBody env h b).
Proof.
  unfold soundKept. intros Hh [Hs Hu]. unfold_blocks. rewrite Hh.
  split_tests; auto.
Qed.

Lemma whisperHighlight_sound b :
  isReceivedWhisper this = true ->
  enableWhisperHighlight (getSettings env) = true ->
  enableWhisperHighlightSound (getSettings env) = true ->
  highlightSound_ (whisperHighlight env this b) = true
  /\ highlightSoundUrl_ (whisperHighlight env this b)
     = if negb (QString.isEmpty (whisperHighlightSoundUrl (getSettings env)))
       then Url (whisperHighlightSoundUrl (getSettings env))
       else getFallbackHighlightSound env.
Proof.
  intros Hw He Hs. unfold whisperHighlight. rewrite Hw, He, Hs. unfold_setters.
  simpl. destruct (QString.isEmpty _); simpl; split_tests; auto.
Qed.

End WhisperSound.

(** The sound of a highlighted whisper is the one that plays unless a
    per-user rule has its own: for a received whisper with the whisper
    highlight and its sound enabled, from a sender who is not
    blacklisted and whom no per-user rule with a sound matches, the
    pass ends with the sound requested and the whisper sound URL (the
    configured one, or the fallback), whatever phrase and badge rules
    match. *)
Theorem whisper_sound_url_final (env : Env) (this : Incoming) (b : Builder) :
  isBlacklistedUser (getCSettings env) (nick this) = false ->
  isReceivedWhisper this = true ->
  enableWhisperHighlight (getSettings env) = true ->
  enableWhisperHighlightSound (getSettings env) = true ->
  Forall (fun h => phraseIsMatch env h (nick this) = true ->
                   HighlightPhrase.hasSound h = false)
    (highlightedUsers (getCSettings env)) ->
  highlightSound_ (parseHighlights env this b) = true
  /\ highlightSoundUrl_ (parseHighlights env this b)
     = if negb (QString.isEmpty (whisperHighlightSoundUrl (getSettings env)))
       then Url (whisperHighlightSoundUrl (getSettings env))
       else getFallbackHighlightSound env.
Proof.
  intros Hb Hw He Hs Hu.
  set (b1 := whisperHighlight env this (subscriptionHighlight env b)).
  destruct (whisperHighlight_sound env this (subscriptionHighlight env b) Hw He Hs)
    as [Hs1 Hu1].
  fold b1 in Hs1, Hu1. rewrite <- Hu1.
  change (soundKept b1 (parseHighlights env this b)).
  unfold parseHighlights. rewrite Hb. fold b1.
  assert (H2 : soundKept b1 (builderOf (userHighlightsLoop env this
                                          (highlightedUsers (getCSettings env)) b1))).
  { apply (userHighlightsLoop_invariant_in env this (soundKept b1)).
    - intros h b' Hin Hm. apply userHighlightBody_soundKept.
      rewrite List.Forall_forall in Hu. now apply Hu.
    - split; [exact Hs1|reflexivity]. }
  destruct (userHighlightsLoop env this _ b1) as [b2|b2]; simpl in H2; [|exact H2].
  destruct (String.eqb _ _); [exact H2|].
  destruct H2 as [Hs2 Hu2].
  destruct (phraseHighlightsLoop_soundKept env this (activeHighlights env) b2 Hs2)
    as [Hs3 Hu3].
  destruct (badgeHighlightsLoop_soundKept env (highlightedBadges (getCSettings env))
              (parseBadges (tags this)) _ false Hs3) as [Hs4 Hu4].
  unfold badgeHighlight, soundKept. split; congruence.
Qed.

Lemma whisper_sound_url_final_witness :
  let env := Sample.env [Sample.bobRule] true in
  let this := Sample.whisper "alice" "hello" in
  highlightSoundUrl_ (parseHighlights env this (Sample.fresh Sample.noFlags))
  = Url "whisper.wav".
Proof.
  intros env this.
  apply (whisper_sound_url_final env this (Sample.fresh Sample.noFlags));
    try reflexivity.
  repeat constructor. discriminate.
Defined.

(** ** The player and the static URL *)

Lemma QUrl_equal_refl (env : Env) (url : QUrl) : QUrl_equal env url url = true.
Proof. unfold QUrl_equal. now apply bool_decide_eq_true_2. Qed.

Ltac dispatch_cases env this b currentPlayerUrl :=
  pose proof (QUrl_equal_refl env (highlightSoundUrl_ b));
  unfold triggerHighlights, getPlayer, calls;
  destruct (QUrl_equal env currentPlayerUrl (highlightSoundUrl_ b)) eqn:?;
  destruct (isInStreamerMode env), (streamerModeMuteMentions (getSettings env)),
    (isMutedChannel (getCSettings env) (channelName this)),
    (highlightSound_ b), (focusWidgetIsSet env),
    (highlightAlwaysPlaySound (getSettings env)), (isGuiThread env),
    (highlightAlert_ b);
  simpl.

Ltac dispatch_finish :=
  repeat split; intros;
  repeat match goal with
    | H : _ \/ _ |- _ => destruct H
    | H : _ /\ _ |- _ => destruct H
    | H : False |- _ => destruct H
    | H : SetMedia _ = SetMedia _ |- _ => injection H as H
    | H : ~ (_ \/ _) |- _ => exfalso; apply H; auto
    end;
  subst; try discriminate; try congruence; auto.

(** The static URL follows the player. After a dispatch it is, for Qt,
    the message's sound URL if the player was started, and it is
    unchanged if the player was not started. The player is given a URL
    only when it is started, only the message's, and only when Qt
    holds that URL different from the static one, which then becomes
    it; when Qt holds the two equal, however they were built, the
    player is not loaded and the static URL stays. *)
Theorem triggerHighlights_static_url
  (env : Env) (this : Incoming) (b : Builder) (currentPlayerUrl : QUrl) :
  let out := fst (triggerHighlights env this b currentPlayerUrl) in
  let static := snd (triggerHighlights env this b currentPlayerUrl) in
  (In Play out -> QUrl_equal env static (highlightSoundUrl_ b) = true)
  /\ (~ In Play out -> static = currentPlayerUrl)
  /\ (forall url, In (SetMedia url) out ->
        url = highlightSoundUrl_ b
        /\ QUrl_equal env currentPlayerUrl url = false
        /\ In Play out
        /\ static = url)
  /\ (QUrl_equal env currentPlayerUrl (highlightSoundUrl_ b) = true ->
      calls isSetMedia out = 0 /\ static = currentPlayerUrl).
Proof.
  dispatch_cases env this b currentPlayerUrl; dispatch_finish.
Qed.

Lemma triggerHighlights_static_url_witness :
  let env := Sample.env [] true in
  let this := Sample.whisper "alice" "hello" in
  let b := mkBuilder Sample.noFlags None true true (Url "user.wav") in
  let custom := mkBuilder Sample.noFlags None true true
                  (fromLocalFile "/home/me/ping.wav") in
  QUrl_equal env (snd (triggerHighlights env this b (Url ""))) (Url "user.wav") = true
  /\ calls isSetMedia
       (fst (triggerHighlights env this custom (Url "file:///home/me/ping.wav"))) = 0
  /\ snd (triggerHighlights env this custom (Url "file:///home/me/ping.wav"))
     = Url "file:///home/me/ping.wav".
Proof.
  intros env this b custom.
  destruct (triggerHighlights_static_url env this b (Url "")) as (H1 & _).
  destruct (triggerHighlights_static_url env this custom
              (Url "file:///home/me/ping.wav")) as (_ & _ & _ & H4).
  split; [apply H1; right; left; reflexivity|].
  apply H4. reflexivity.
Defined.

(** Dispatching the same message again, from the static URL the first
    dispatch left, makes the same calls without loading the player
    again, and leaves the static URL. *)
Theorem triggerHighlights_again
  (env : Env) (this : Incoming) (b : Builder) (currentPlayerUrl : QUrl) :
  let first := triggerHighlights env this b currentPlayerUrl in
  triggerHighlights env this b (snd first)
  = (List.filter (fun c => negb (isSetMedia c)) (fst first), snd first).
Proof.
  pose proof (QUrl_equal_refl env (highlightSoundUrl_ b)) as Hrefl.
  unfold triggerHighlights, getPlayer.
  destruct (isInStreamerMode env), (streamerModeMuteMentions (getSettings env)),
    (isMutedChannel (getCSettings env) (channelName this)),
    (highlightSound_ b), (focusWidgetIsSet env),
    (highlightAlwaysPlaySound (getSettings env)), (isGuiThread env),
    (highlightAlert_ b);
    simpl; try reflexivity.
  all: destruct (QUrl_equal env currentPlayerUrl (highlightSoundUrl_ b)) eqn:Heq;
    simpl; rewrite ?Heq, ?Hrefl; reflexivity.
Qed.

(** When the static URL is what the player has loaded, it still is
    after a dispatch, and whatever is played is, for Qt, the message's
    sound URL. *)
Theorem triggerHighlights_plays_message_sound
  (env : Env) (this : Incoming) (b : Builder) (currentPlayerUrl loaded : QUrl) :
  loaded = currentPlayerUrl ->
  let out := fst (triggerHighlights env this b currentPlayerUrl) in
  loadedMedia out loaded = snd (triggerHighlights env this b currentPlayerUrl)
  /\ Forall (fun url => QUrl_equal env url (highlightSoundUrl_ b) = true)
       (playedMedia out loaded).
Proof.
  intros ->.
  dispatch_cases env this b currentPlayerUrl; repeat split; repeat constructor; auto.
Qed.

Lemma triggerHighlights_plays_message_sound_witness :
  let env := Sample.env [] true in
  let this := Sample.whisper "alice" "hello" in
  let b := mkBuilder Sample.noFlags None true true (Url "user.wav") in
  let custom := mkBuilder Sample.noFlags None true true
                  (fromLocalFile "/home/me/ping.wav") in
  Forall (fun url => QUrl_equal env url (Url "user.wav") = true)
    (playedMedia (fst (triggerHighlights env this b (Url "ping.wav"))) (Url "ping.wav"))
  /\ Forall (fun url => QUrl_equal env url (fromLocalFile "/home/me/ping.wav") = true)
       (playedMedia
          (fst (triggerHighlights env this custom (Url "file:///home/me/ping.wav")))
          (Url "file:///home/me/ping.wav")).
Proof.
  intros env this b custom. split.
  - apply (triggerHighlights_plays_message_sound env this b
             (Url "ping.wav") (Url "ping.wav")).
    reflexivity.
  - apply (triggerHighlights_plays_message_sound env this custom
             (Url "file:///home/me/ping.wav") (Url "file:///home/me/ping.wav")).
    reflexivity.
Defined.

(** ** The search predicates *)

Section ParsePredicates.

Context {Message : Type}.
Variable senv : SearchEnv Message.

Lemma parsePredicates_step_shape (st : Parsing) (m : QRegularExpressionMatch) :
  parsePredicates_step senv st m
  = mkParsing
      (predicates st ++ option_list (simplePredicate (removeQuotationMarks senv) m))%list
      (authors st ++ valuesOf (removeQuotationMarks senv) "from" [m])%list
      (channels st ++ valuesOf (removeQuotationMarks senv) "in" [m])%list.
Proof.
  unfold parsePredicates_step, simplePredicate, valuesOf. simpl.
  destruct (String.eqb (capturedName m) "from") eqn:Hfrom.
  - apply String.eqb_eq in Hfrom. rewrite Hfrom. simpl.
    now rewrite !app_nil_r.
  - destruct (String.eqb (capturedName m) "has" && _) eqn:Hhas.
    + apply andb_true_iff in Hhas as [Hhas _].
      apply String.eqb_eq in Hhas. rewrite Hhas. simpl. now rewrite !app_nil_r.
    + destruct (String.eqb (capturedName m) "in") eqn:Hin; simpl;
        [now rewrite !app_nil_r|].
      destruct (String.eqb (capturedName m) "is"); simpl; [now rewrite !app_nil_r|].
      destruct (String.eqb (capturedName m) "regex"); simpl; now rewrite !app_nil_r.
Qed.

Lemma valuesOf_cons key m matches :
  valuesOf (removeQuotationMarks senv) key (m :: matches)
  = (valuesOf (removeQuotationMarks senv) key [m]
     ++ valuesOf (removeQuotationMarks senv) key matches)%list.
Proof.
  unfold valuesOf. simpl. destruct (String.eqb (capturedName m) key); reflexivity.
Qed.

Lemma parsePredicates_loop_shape (matches : list QRegularExpressionMatch) (st : Parsing) :
  fold_left (parsePredicates_step senv) matches st
  = mkParsing
      (predicates st ++ omap (simplePredicate (removeQuotationMarks senv)) matches)%list
      (authors st ++ valuesOf (removeQuotationMarks senv) "from" matches)%list
      (channels st ++ valuesOf (removeQuotationMarks senv) "in" matches)%list.
Proof.
  revert st. induction matches as [|m rest IH]; intros st.
  - destruct st. simpl. unfold valuesOf. simpl. now rewrite !app_nil_r.
  - cbn [fold_left]. rewrite IH, parsePredicates_step_shape. cbn [predicates authors channels].
    rewrite (valuesOf_cons "from" m rest), (valuesOf_cons "in" m rest).
    change (omap (simplePredicate (removeQuotationMarks senv)) (m :: rest))
      with (match simplePredicate (removeQuotationMarks senv) m with
            | Some p => p :: omap (simplePredicate (removeQuotationMarks senv)) rest
            | None => omap (simplePredicate (removeQuotationMarks senv)) rest
            end).
    destruct (simplePredicate (removeQuotationMarks senv) m); simpl; now rewrite <- !app_assoc.
Qed.

(** Every match is a simple predicate, an author or a channel. *)
Lemma matches_partition (matches : list QRegularExpressionMatch) :
  length (omap (simplePredicate (removeQuotationMarks senv)) matches)
  + length (valuesOf (removeQuotationMarks senv) "from" matches)
  + length (valuesOf (removeQuotationMarks senv) "in" matches)
  = length matches.
Proof.
  induction matches as [|m rest IH]; [reflexivity|].
  rewrite (valuesOf_cons "from" m rest), (valuesOf_cons "in" m rest).
  change (omap (simplePredicate (removeQuotationMarks senv)) (m :: rest))
    with (match simplePredicate (removeQuotationMarks senv) m with
          | Some p => p :: omap (simplePredicate (removeQuotationMarks senv)) rest
          | None => omap (simplePredicate (removeQuotationMarks senv)) rest
          end).
  rewrite !length_app. cbn [length]. rewrite <- IH.
  unfold simplePredicate, valuesOf. simpl.
  destruct (String.eqb (capturedName m) "from") eqn:Hfrom.
  - apply String.eqb_eq in Hfrom. rewrite Hfrom. simpl. lia.
  - destruct (String.eqb (capturedName m) "has" && _) eqn:Hhas.
    + apply andb_true_iff in Hhas as [Hhas _].
      apply String.eqb_eq in Hhas. rewrite Hhas. simpl. lia.
    + destruct (String.eqb (capturedName m) "in") eqn:Hin; simpl; [lia|].
      destruct (String.eqb (capturedName m) "is"); simpl; [lia|].
      destruct (String.eqb (capturedName m) "regex"); simpl; lia.
Qed.

End ParsePredicates.

Lemma parsePredicates_matches_shape {Message : Type} (senv : SearchEnv Message)
  (matches : list QRegularExpressionMatch) :
  parsePredicates_matches senv matches
  = (omap (simplePredicate (removeQuotationMarks senv)) matches
     ++ match valuesOf (removeQuotationMarks senv) "from" matches with
        | [] => []
        | authors => [AuthorPredicate authors]
        end
     ++ match valuesOf (removeQuotationMarks senv) "in" matches with
        | [] => []
        | channels => [ChannelPredicate channels]
        end)%list.
Proof.
  unfold parsePredicates_matches. rewrite parsePredicates_loop_shape. simpl.
  destruct (valuesOf _ "from" matches), (valuesOf _ "in" matches); simpl;
    now rewrite <- ?app_assoc, ?app_nil_r.
Qed.

(** The predicates of a search text are the simple predicates of its
    tokens in the order of the tokens, then one author predicate with
    the values of all [from:] tokens if there are any, then one
    channel predicate with the values of all [in:] tokens if there
    are any. *)
Theorem parsePredicates_shape {Message : Type} (senv : SearchEnv Message)
  (matches : list QRegularExpressionMatch) :
  parsePredicates_matches senv matches
  = (omap (simplePredicate (removeQuotationMarks senv)) matches
     ++ match valuesOf (removeQuotationMarks senv) "from" matches with
        | [] => []
        | authors => [AuthorPredicate authors]
        end
     ++ match valuesOf (removeQuotationMarks senv) "in" matches with
        | [] => []
        | channels => [ChannelPredicate channels]
        end)%list.
Proof. exact (parsePredicates_matches_shape senv matches). Qed.

(** There are no more predicates than tokens, and there is none only
    when there is no token. *)
Theorem parsePredicates_count {Message : Type} (senv : SearchEnv Message)
  (matches : list QRegularExpressionMatch) :
  length (parsePredicates_matches senv matches) <= length matches
  /\ (parsePredicates_matches senv matches = [] <-> matches = []).
Proof.
  rewrite parsePredicates_matches_shape.
  pose proof (matches_partition senv matches) as Hp.
  rewrite !length_app.
  destruct (valuesOf _ "from" matches) as [|a al],
    (valuesOf _ "in" matches) as [|c cl],
    (omap _ matches) as [|p pl]; simpl in *; split; try lia.
  all: split; intros H; try discriminate H; subst; try reflexivity.
  all: try (destruct matches; [reflexivity|simpl in Hp; lia]).
  all: simpl in Hp; lia.
Qed.

(** ** The search filter *)

Section Filter.

Context {Message : Type}.
Variable senv : SearchEnv Message.

Lemma acceptLoop_forallb predicates message :
  acceptLoop senv predicates message
  = forallb (fun pred => appliesTo senv pred message) predicates.
Proof.
  induction predicates as [|pred rest IH]; simpl; [reflexivity|].
  destruct (appliesTo senv pred message); simpl; [exact IH|reflexivity].
Qed.

Lemma filter_loop_no_filterSet predicates snapshot (channel : Channel Message) :
  fold_left (filter_step senv predicates None) snapshot channel
  = mkChannel (getName channel)
      (getMessageSnapshot channel
       ++ List.filter (acceptLoop senv predicates) snapshot)%list.
Proof.
  revert channel. induction snapshot as [|message rest IH]; intros channel; simpl.
  - destruct channel. simpl. now rewrite app_nil_r.
  - rewrite IH. unfold filter_step.
    destruct (acceptLoop senv predicates message); simpl;
      now rewrite <- ?app_assoc.
Qed.

Lemma split_snoc {A : Type} (before after l : list A) (x y : A) :
  (before ++ x :: after = l ++ [y])%list ->
  (after = [] /\ before = l /\ x = y)
  \/ exists after', after = (after' ++ [y])%list /\ l = (before ++ x :: after')%list.
Proof.
  intros H.
  destruct after as [|z after _] using rev_ind.
  - left. apply app_inj_tail in H as [-> ->]. auto.
  - right. exists after.
    change (before ++ x :: after ++ [z])%list
      with (before ++ (x :: after) ++ [z])%list in H.
    rewrite app_assoc in H. apply app_inj_tail in H as [<- ->]. auto.
Qed.

Lemma filter_loop_keptBy predicates (filterSet : FilterSetPtr Message) channelName
  (snapshot messages : list Message) :
  keptBy senv predicates filterSet channelName messages ->
  exists kept,
    fold_left (filter_step senv predicates filterSet) snapshot
      (mkChannel channelName messages)
    = mkChannel channelName (messages ++ kept)%list
    /\ sublist kept snapshot
    /\ keptBy senv predicates filterSet channelName (messages ++ kept)%list.
Proof.
  revert messages. induction snapshot as [|message rest IH]; intros messages Hk.
  - exists []. simpl. rewrite app_nil_r. repeat split; [constructor|apply Hk|apply Hk].
  - cbn [fold_left]. unfold filter_step at 2.
    assert (Hskip : exists kept,
               fold_left (filter_step senv predicates filterSet) rest
                 (mkChannel channelName messages)
               = mkChannel channelName (messages ++ kept)%list
               /\ sublist kept (message :: rest)
               /\ keptBy senv predicates filterSet channelName (messages ++ kept)%list).
    { destruct (IH messages Hk) as (kept & Hf & Hs & Hk').
      exists kept. repeat split; [exact Hf|now constructor|apply Hk'|apply Hk']. }
    destruct (acceptLoop senv predicates message) eqn:Ha;
      [|destruct filterSet; exact Hskip].
    assert (Hadd : keptBy senv predicates filterSet channelName (messages ++ [message])%list ->
               exists kept,
                 fold_left (filter_step senv predicates filterSet) rest
                   (addMessage (mkChannel channelName messages) message)
                 = mkChannel channelName (messages ++ kept)%list
                 /\ sublist kept (message :: rest)
                 /\ keptBy senv predicates filterSet channelName (messages ++ kept)%list).
    { intros Hk1. destruct (IH _ Hk1) as (kept & Hf & Hs & Hk').
      exists (message :: kept). unfold addMessage. simpl.
      rewrite <- app_assoc in Hf, Hk'. simpl in Hf, Hk'.
      repeat split; [exact Hf|now constructor|apply Hk'|apply Hk']. }
    destruct Hk as [Hall Hfs].
    destruct filterSet as [filterSetFilter|].
    + destruct (filterSetFilter message (mkChannel channelName messages)) eqn:Hfm;
        [|exact Hskip].
      apply Hadd. split.
      * apply Forall_app. split; [exact Hall|]. constructor; [exact Ha|constructor].
      * intros f before x after Hf Hsplit. injection Hf as <-.
        symmetry in Hsplit.
        apply split_snoc in Hsplit as [(-> & -> & ->) | (after' & -> & ->)];
          [exact Hfm|]. now apply (Hfs filterSetFilter before x after').
    + apply Hadd. split.
      * apply Forall_app. split; [exact Hall|]. constructor; [exact Ha|constructor].
      * intros f before x after Hf. discriminate Hf.
Qed.

End Filter.

Lemma filter_filter {A : Type} (f : A -> bool) (l : list A) :
  List.filter f (List.filter f l) = List.filter f l.
Proof.
  induction l as [|x l IH]; simpl; [reflexivity|].
  destruct (f x) eqn:Hx; simpl; [now rewrite Hx, IH|exact IH].
Qed.

Lemma filter_without_filterSet {Message : Type} (senv : SearchEnv Message)
  (text channelName : QString) (snapshot : list Message) :
  filter senv text channelName snapshot None
  = mkChannel channelName
      (List.filter
         (fun message =>
            forallb (fun pred => appliesTo senv pred message) (parsePredicates senv text))
         snapshot).
Proof.
  unfold filter. rewrite filter_loop_no_filterSet. simpl. f_equal.
  apply filter_ext. intros message. apply acceptLoop_forallb.
Qed.

(** Without a filter set the search shows, under the given name, the
    messages of the snapshot that every predicate of the text applies
    to, in the order of the snapshot. *)
Theorem filter_selects {Message : Type} (senv : SearchEnv Message)
  (text channelName : QString) (snapshot : list Message) :
  filter senv text channelName snapshot None
  = mkChannel channelName
      (List.filter
         (fun message =>
            forallb (fun pred => appliesTo senv pred message) (parsePredicates senv text))
         snapshot).
Proof. exact (filter_without_filterSet senv text channelName snapshot). Qed.

(** Searching the result of a search with the same text gives the same
    result (without a filter set). *)
Theorem filter_idempotent {Message : Type} (senv : SearchEnv Message)
  (text channelName : QString) (snapshot : list Message) :
  filter senv text channelName
    (getMessageSnapshot (filter senv text channelName snapshot None)) None
  = filter senv text channelName snapshot None.
Proof.
  rewrite !filter_without_filterSet. simpl. now rewrite filter_filter.
Qed.

(** A text in which the regular expression finds no token shows the
    whole snapshot (without a filter set). *)
Theorem filter_no_token_shows_all {Message : Type} (senv : SearchEnv Message)
  (text channelName : QString) (snapshot : list Message) :
  globalMatch senv text = [] ->
  filter senv text channelName snapshot None = mkChannel channelName snapshot.
Proof.
  intros Hm. rewrite filter_without_filterSet. unfold parsePredicates. rewrite Hm. simpl.
  f_equal. induction snapshot as [|message rest IH]; simpl; [reflexivity|].
  now rewrite IH.
Qed.

Lemma filter_no_token_shows_all_witness :
  filter SearchSample.senv "" "forsen" [3; 8; 12] None = mkChannel "forsen" [3; 8; 12].
Proof.
  apply (filter_no_token_shows_all SearchSample.senv "" "forsen" [3; 8; 12]).
  reflexivity.
Defined.

Lemma filter_result_keptBy {Message : Type} (senv : SearchEnv Message)
  (text channelName : QString) (snapshot : list Message)
  (filterSet : FilterSetPtr Message) :
  let result := filter senv text channelName snapshot filterSet in
  getName result = channelName
  /\ sublist (getMessageSnapshot result) snapshot
  /\ Forall (fun message =>
               Forall (fun pred => appliesTo senv pred message = true)
                 (parsePredicates senv text))
       (getMessageSnapshot result)
  /\ (forall filterSetFilter before message after,
        filterSet = Some filterSetFilter ->
        getMessageSnapshot result = (before ++ message :: after)%list ->
        filterSetFilter message (mkChannel channelName before) = true).
Proof.
  unfold filter.
  destruct (filter_loop_keptBy senv (parsePredicates senv text) filterSet channelName
              snapshot []) as (kept & -> & Hs & Hall & Hfs).
  - split; [constructor|]. intros f [|x before] message after _ H; discriminate H.
  - simpl. repeat split; [exact Hs| |exact Hfs].
    revert Hall. apply List.Forall_impl. intros message Ha.
    rewrite acceptLoop_forallb in Ha. rewrite List.forallb_forall in Ha.
    rewrite List.Forall_forall. exact Ha.
Qed.

(** With or without a filter set, the channel a search returns has the
    given name, its messages are a selection of the snapshot in the
    order of the snapshot, every predicate of the text applies to each
    of them, and the filter set accepted each of them on the channel
    holding the messages selected before it. *)
Theorem filter_keeps_accepted {Message : Type} (senv : SearchEnv Message)
  (text channelName : QString) (snapshot : list Message)
  (filterSet : FilterSetPtr Message) :
  let result := filter senv text channelName snapshot filterSet in
  getName result = channelName
  /\ sublist (getMessageSnapshot result) snapshot
  /\ Forall (fun message =>
               Forall (fun pred => appliesTo senv pred message = true)
                 (parsePredicates senv text))
       (getMessageSnapshot result)
  /\ (forall filterSetFilter before message after,
        filterSet = Some filterSetFilter ->
        getMessageSnapshot result = (before ++ message :: after)%list ->
        filterSetFilter message (mkChannel channelName before) = true).
Proof. exact (filter_result_keptBy senv text channelName snapshot filterSet). Qed.

Lemma filter_keeps_accepted_witness :
  let roomForTwo := fun (message : nat) (channel : Channel nat) =>
                      Nat.ltb (length (getMessageSnapshot channel)) 2 in
  getMessageSnapshot
    (filter SearchSample.senv "even small" "forsen" [1; 2; 4; 6; 12] (Some roomForTwo))
  = [2; 4]
  /\ roomForTwo 4 (mkChannel "forsen" [2]) = true.
Proof.
  intros roomForTwo. split; [reflexivity|].
  destruct (filter_keeps_accepted SearchSample.senv "even small" "forsen"
              [1; 2; 4; 6; 12] (Some roomForTwo)) as (_ & _ & _ & H).
  apply (H roomForTwo [2] 4 []); reflexivity.
Defined.

(** ** The popup *)

Lemma length_append (s1 s2 : QString) :
  String.length (s1 ++ s2) = String.length s1 + String.length s2.
Proof. induction s1 as [|c s1 IH]; simpl; [reflexivity|now rewrite IH]. Qed.

Lemma append_inj (a b t u : QString) :
  String.length t = String.length u -> a ++ t = b ++ u -> a = b /\ t = u.
Proof.
  revert b. induction a as [|c a IH]; intros b Hlen H.
  - change ("" ++ t) with t in H.
    destruct b as [|d b]; [auto|].
    apply (f_equal String.length) in H.
    change (String.length (String d b ++ u)) with (S (String.length (b ++ u))) in H.
    rewrite (length_append b u) in H. lia.
  - change (String c a ++ t) with (String c (a ++ t)) in H.
    destruct b as [|d b].
    + change ("" ++ u) with u in H.
      apply (f_equal String.length) in H.
      change (String.length (String c (a ++ t))) with (S (String.length (a ++ t))) in H.
      rewrite (length_append a t) in H. lia.
    + change (String d b ++ u) with (String d (b ++ u)) in H.
      injection H as -> H. destruct (IH b Hlen H) as [-> ->]. auto.
Qed.

Lemma historyName_collision (a b : QString) :
  historyName a = historyName b ->
  a = b \/ (a = "" /\ b = "<empty>") \/ (a = "<empty>" /\ b = "").
Proof.
  unfold historyName.
  destruct (String.eqb a "/whispers") eqn:Haw; [apply String.eqb_eq in Haw|];
    (destruct (String.eqb a "/mentions") eqn:Ham; [apply String.eqb_eq in Ham|]);
    (destruct (QString.isEmpty a) eqn:Hae;
       [destruct a; [|discriminate Hae]|]);
    (destruct (String.eqb b "/whispers") eqn:Hbw; [apply String.eqb_eq in Hbw|]);
    (destruct (String.eqb b "/mentions") eqn:Hbm; [apply String.eqb_eq in Hbm|]);
    (destruct (QString.isEmpty b) eqn:Hbe;
       [destruct b; [|discriminate Hbe]|]);
    subst; try discriminate; auto; intros H.
  all: try (apply (append_inj _ "whispe" "'s" "rs") in H as [_ H];
            [discriminate H|reflexivity]).
  all: try (apply (append_inj _ "mentio" "'s" "ns") in H as [_ H];
            [discriminate H|reflexivity]).
  all: try (symmetry in H; apply (append_inj _ "whispe" "'s" "rs") in H as [_ H];
            [discriminate H|reflexivity]).
  all: try (symmetry in H; apply (append_inj _ "mentio" "'s" "ns") in H as [_ H];
            [discriminate H|reflexivity]).
  all: try (apply (append_inj "<empty>" _ "'s" "'s") in H as [<- _];
            [auto|reflexivity]).
  all: try (apply (append_inj _ "<empty>" "'s" "'s") in H as [-> _];
            [auto|reflexivity]).
  all: apply (append_inj _ _ "'s" "'s") in H as [-> _]; [auto|reflexivity].
Qed.

(** The title of the window tells the channels apart, but for the
    channel without a name and a channel named [<empty>], which get
    the same title. *)
Theorem updateWindowTitle_tells_channels {Message : Type}
  (popup1 popup2 : SearchPopup Message) :
  (windowTitle (updateWindowTitle popup1) = windowTitle (updateWindowTitle popup2) ->
   channelName_ popup1 = channelName_ popup2
   \/ (channelName_ popup1 = "" /\ channelName_ popup2 = "<empty>")
   \/ (channelName_ popup1 = "<empty>" /\ channelName_ popup2 = ""))
  /\ (channelName_ popup1 = "" -> channelName_ popup2 = "<empty>" ->
      windowTitle (updateWindowTitle popup1) = windowTitle (updateWindowTitle popup2)).
Proof.
  unfold updateWindowTitle. simpl. split.
  - intros H. apply historyName_collision.
    apply (append_inj "Searching in " "Searching in " _ _) in H as [_ H].
    + apply (append_inj _ _ " history" " history") in H as [H _]; [exact H|reflexivity].
    + injection H as H.
      apply (f_equal String.length) in H. exact H.
  - intros -> ->. reflexivity.
Qed.

Lemma updateWindowTitle_tells_channels_witness :
  let unnamed : SearchPopup nat := mkSearchPopup "" "" [] None None None "" in
  let named : SearchPopup nat := mkSearchPopup "" "<empty>" [] None None None "" in
  (channelName_ unnamed = channelName_ named
   \/ (channelName_ unnamed = "" /\ channelName_ named = "<empty>")
   \/ (channelName_ unnamed = "<empty>" /\ channelName_ named = ""))
  /\ windowTitle (updateWindowTitle unnamed) = windowTitle (updateWindowTitle named).
Proof.
  intros unnamed named.
  destruct (updateWindowTitle_tells_channels unnamed named) as [H1 H2].
  split; [apply H1|apply H2]; reflexivity.
Defined.

